(** * pyasst.spider: throttle, retry-aware request dispatch, chunked download

    A shallow embedding of [src/pyasst/spider.py].  Methods that mutate
    their object or talk to the outside world (the clock, the network, the
    file system) are functions in a state-and-exception monad whose state is
    the receiving object together with a chronological trace of the effects
    performed so far.  Library functions whose behaviour is fixed outside the
    module ([str.lower], [int], [os.path.split], the transport behind
    [requests]) are variables of the sections that use them. *)

From Stdlib Require Import ZArith QArith Lia.
From stdpp Require Import gmap strings list pretty.

Open Scope Z_scope.

(** ** Python values, exceptions and results *)

(** Exceptions.  [RuntimeError] is the only class the module raises itself;
    the next five are raised by the interpreter or by built-ins on the paths
    the module goes through (their message text is not modelled);
    [OtherError] stands for any other exception object, such as those the
    transport or [open] raise. *)
Inductive exn :=
| RuntimeError (msg : string)
| ZeroDivisionError
| ValueError
| AttributeError
| TypeError
| OverflowError
| OtherError (cls : string) (msg : string).

(** The class of an exception object, as [type(e).__name__] gives it. *)
Definition exn_class (e : exn) : string :=
  match e with
  | RuntimeError _ => "RuntimeError"
  | ZeroDivisionError => "ZeroDivisionError"
  | ValueError => "ValueError"
  | AttributeError => "AttributeError"
  | TypeError => "TypeError"
  | OverflowError => "OverflowError"
  | OtherError cls _ => cls
  end.

(** Outcome of running a piece of code: it returns, it raises, or the
    fuel given to a [while] loop ran out (which [request] never does with
    the fuel of [request_loop_fuel]). *)
Inductive result (A : Type) :=
| Return (a : A)
| Raise (e : exn)
| OutOfFuel.
Arguments Return {A} a.
Arguments Raise {A} e.
Arguments OutOfFuel {A}.

(** [requests.Session()] or the [requests] module itself. *)
Inductive session_obj := NewSession | RequestsModule.

(** A bound verb callable such as [self.session.get]. *)
Record bound_method := BoundMethod { bm_self : session_obj; bm_name : string }.

(** The two throttle classes: [Delay] and [RequestHandler._FalseDelay_]. *)
Inductive delay_class := DelayClass | FalseDelayClass.

(** Instance of [Delay] (or of its subclass): the attributes set by
    [Delay.__init__].  The pause length is a float in the source; it is
    only ever handed to [time.sleep], so a rational stands for it. *)
Record Delay := mkDelay {
  cls : delay_class;
  counter : Z;
  step : Z;
  sleep : Q
}.

(** The Python values that occur as constructor arguments, instance
    attributes and request options.  [VClass c] is the class object of a
    throttle class ([Delay] or [RequestHandler._FalseDelay_]), [VBound m] a
    bound verb callable, and [VFunction ret] a function that, called
    without arguments, returns [ret]. *)
Inductive value :=
| VNone
| VBool (b : bool)
| VInt (z : Z)
| VStr (s : string)
| VTuple (l : list string)
| VList (l : list string)
| VDict (d : gmap string string)
| VSession (s : session_obj)
| VMethods (m : gmap string bound_method)
| VDelay (d : Delay)
| VLogger (name : string)
| VClass (c : delay_class)
| VBound (m : bound_method)
| VFunction (ret : value).

(** Truth value of an object, as [if x] tests it. *)
Definition truthy (v : value) : bool :=
  match v with
  | VNone => false
  | VBool b => b
  | VInt z => negb (z =? 0)
  | VStr s => negb (String.eqb s "")
  | VTuple l | VList l => negb (Nat.eqb (length l) 0)
  | VDict d => negb (Nat.eqb (size d) 0)
  | VSession _ | VDelay _ | VLogger _ | VClass _ | VBound _
  | VFunction _ => true
  | VMethods m => negb (Nat.eqb (size m) 0)
  end.

(** A Python [bytes] object. *)
Abbreviation bytes := (list Byte.byte).

(** ** The response object of the transport *)

Module Response.
(** [requests.structures.CaseInsensitiveDict]: the store is keyed by the
    lower-cased header name and keeps the original name with the value. *)
Record CaseInsensitiveDict := { store : gmap string (string * string) }.

Record t := {
  status_code : Z;
  headers : CaseInsensitiveDict;
  content : bytes;
  iter_content : Z -> list bytes
}.
End Response.

(** What one transport call does: it returns a response or raises. *)
Inductive reply :=
| Responds (r : Response.t)
| Fails (e : exn).

(** ** Effects *)

(** One observable effect.  The trace lists them oldest first. *)
Inductive event :=
| Sleep (secs : Q)
| Call (m : bound_method) (url : string) (kwargs : gmap string value)
| MakeDirs (dirpath : string)
| Open (path : string)
| Next (chuck : bytes)
| Write (data : bytes)
| CloseResponse
| CloseFile.

(** The receiver of a method call and the effects performed so far. *)
Record world (O : Type) := World { self : O; trace : list event }.
Arguments World {O} self trace.
Arguments self {O} w.
Arguments trace {O} w.

(** State-and-exception monad over a world. *)
Definition M (O A : Type) : Type := world O -> result A * world O.

Definition ret {O A} (a : A) : M O A := fun w => (Return a, w).

Definition raise {O A} (e : exn) : M O A := fun w => (Raise e, w).

Definition out_of_fuel {O A} : M O A := fun w => (OutOfFuel, w).

Definition bind {O A B} (m : M O A) (k : A -> M O B) : M O B :=
  fun w =>
    match m w with
    | (Return a, w') => k a w'
    | (Raise e, w') => (Raise e, w')
    | (OutOfFuel, w') => (OutOfFuel, w')
    end.

Declare Scope py_scope.
Delimit Scope py_scope with py.
Notation "x <- m ;; k" := (bind m (fun x => k))
  (at level 100, m at next level, right associativity) : py_scope.
Notation "m ;;; k" := (bind m (fun _ => k))
  (at level 100, right associativity) : py_scope.
Open Scope py_scope.

Definition get_self {O} : M O O := fun w => (Return (self w), w).

Definition set_self {O} (o : O) : M O unit :=
  fun w => (Return tt, World o (trace w)).

Definition emit {O} (e : event) : M O unit :=
  fun w => (Return tt, World (self w) (trace w ++ [e])).

(** [try: body finally: cleanup], which is what leaving a [with] block
    does: the cleanup runs on every exit path and the outcome of the body
    is kept. *)
Definition finally {O A} (body : M O A) (cleanup : M O unit) : M O A :=
  fun w =>
    let '(r, w') := body w in
    match cleanup w' with
    | (Return _, w'') => (r, w'')
    | (Raise e, w'') => (Raise e, w'')
    | (OutOfFuel, w'') => (OutOfFuel, w'')
    end.

(** Run a method of a sub-object [p] of the receiver, storing the mutated
    sub-object back with [upd]: [self.p.method()]. *)
Definition on_field {O P A} (proj : O -> P) (upd : P -> O -> O)
    (m : M P A) : M O A :=
  fun w =>
    let '(r, wp) := m (World (proj (self w)) (trace w)) in
    (r, World (upd (self wp) (self w)) (trace wp)).

(** What the interpreter and the operating system decide.
    [sleep_error secs] is what [time.sleep(secs)] raises instead of
    sleeping, if anything: [ValueError] for a negative length,
    [OverflowError] for one too large for the clock of the platform.
    [open_error path] is what [open(path, 'wb')] raises instead of
    returning a file, if anything, once the directory of [path] has been
    made. *)
Class Platform := {
  sleep_error : Q -> option exn;
  open_error : string -> option exn
}.

(** [time.sleep(secs)] *)
Definition time_sleep {platform : Platform} {O} (secs : Q) : M O unit :=
  match sleep_error secs with
  | Some e => raise e
  | None => emit (Sleep secs)
  end.

(** [a % b] on integers: the sign follows the divisor, as [Z.modulo]
    does, and a zero divisor raises. *)
Definition py_mod {O} (a b : Z) : M O Z :=
  if b =? 0 then raise ZeroDivisionError else ret (a mod b).

(** ** class Delay *)

(** [Delay.__init__(self, step=10, sleep=1)] *)
Definition Delay_init (c : delay_class) (step : Z) (sleep : Q) : Delay :=
  {| cls := c; counter := 0; step := step; sleep := sleep |}.

Definition set_counter (n : Z) (d : Delay) : Delay :=
  {| cls := cls d; counter := n; step := step d; sleep := sleep d |}.

(** [Delay.action] *)
Definition Delay_action {platform : Platform} : M Delay unit :=
  d <- get_self ;;
  set_self (set_counter (counter d + 1) d) ;;;
  d <- get_self ;;
  r <- py_mod (counter d) (step d) ;;
  if r =? 0 then time_sleep (sleep d) else ret tt.

(** [RequestHandler._FalseDelay_.action] *)
Definition FalseDelay_action : M Delay unit := ret tt.

(** Method resolution of [delay.action()] on the class of the object. *)
Definition action {platform : Platform} : M Delay unit :=
  d <- get_self ;;
  match cls d with
  | DelayClass => Delay_action
  | FalseDelayClass => FalseDelay_action
  end.

(** ** class RequestHandler *)

Definition CHUCK_SIZE : Z := 8192.

Definition HEADERS : gmap string string :=
  {[ "User-Agent" :=
       "Mozilla/5.0 (Macintosh; Intel Mac OS X 10_15_3) AppleWebKit/537.36 (KHTML, like Gecko) Chrome/79.0.3945.130 Safari/537.36 " ]}.

(** [__name__] of the module, the name of its logger. *)
Definition module_name : string := "pyasst.spider".

(** An object under construction: its class, which assigning [__class__]
    changes, and its instance dictionary. *)
Inductive instance_class := RequestHandlerClass | ThrottleClass (c : delay_class).

Record instance := mkInstance {
  inst_class : instance_class;
  inst_dict : gmap string value
}.

(** [self.key = value] for a name that is an ordinary attribute. *)
Definition assign (key : string) (v : value) (self : instance) : instance :=
  mkInstance (inst_class self) (<[ key := v ]> (inst_dict self)).

(** The names every instance of a plain class reserves: assigning them
    does not store an attribute. *)
Definition reserved_names : list string :=
  ["__class__"; "__dict__"; "__weakref__"]%string.

(** [setattr(self, key, value)].  [__class__] takes a class (of the same
    layout, as the throttle classes are) and changes the class of the
    object; [__dict__] takes a dictionary, which becomes the instance
    dictionary; [__weakref__] cannot be written; any other name is stored
    in the instance dictionary. *)
Definition setattr (self : instance) (kv : string * value) : result instance :=
  if String.eqb kv.1 "__class__" then
    match kv.2 with
    | VClass c => Return (mkInstance (ThrottleClass c) (inst_dict self))
    | _ => Raise TypeError
    end
  else if String.eqb kv.1 "__dict__" then
    match kv.2 with
    | VDict d => Return (mkInstance (inst_class self) (VStr <$> d))
    | VMethods m => Return (mkInstance (inst_class self) (VBound <$> m))
    | _ => Raise TypeError
    end
  else if String.eqb kv.1 "__weakref__" then Raise AttributeError
  else Return (assign kv.1 kv.2 self).

(** [for key, value in kwargs.items(): setattr(self, key, value)] *)
Fixpoint setattr_all (self : instance) (kwargs : list (string * value))
    : result instance :=
  match kwargs with
  | [] => Return self
  | kv :: kwargs =>
      match setattr self kv with
      | Return self => setattr_all self kwargs
      | Raise e => Raise e
      | OutOfFuel => OutOfFuel
      end
  end.

(** [self._FalseDelay_]: the instance dictionary first, then the class;
    only [RequestHandler] has the nested class. *)
Definition getattr_FalseDelay (self : instance) : result value :=
  match inst_dict self !! "_FalseDelay_" with
  | Some v => Return v
  | None =>
      match inst_class self with
      | RequestHandlerClass => Return (VClass FalseDelayClass)
      | ThrottleClass _ => Raise AttributeError
      end
  end.

(** [f()]: a throttle class gives a fresh instance with the default step
    and pause, a function its result, and what is not callable (or wants
    an argument) raises [TypeError]. *)
Definition call0 (f : value) : result value :=
  match f with
  | VClass c => Return (VDelay (Delay_init c 10 1))
  | VFunction ret => Return ret
  | _ => Raise TypeError
  end.

(** The [self.methods] dictionary built from the session object. *)
Definition session_methods (s : session_obj) : gmap string bound_method :=
  <[ "delete" := BoundMethod s "delete" ]>
  (<[ "patch" := BoundMethod s "patch" ]>
  (<[ "put" := BoundMethod s "put" ]>
  (<[ "post" := BoundMethod s "post" ]>
  (<[ "head" := BoundMethod s "head" ]>
  (<[ "options" := BoundMethod s "options" ]>
  (<[ "get" := BoundMethod s "get" ]> ∅)))))).

(** The parameters of [__init__]: a keyword of one of these names binds
    the parameter and is no extra keyword; given next to the parameter
    itself it makes the call raise [TypeError] (multiple values). *)
Definition parameter_names : list string :=
  ["self"; "session"; "headers"; "encoding"; "retry"; "delay"]%string.

Definition bound_twice (kwargs : list (string * value)) : bool :=
  existsb (fun kv => bool_decide (kv.1 ∈ parameter_names)) kwargs.

(** [RequestHandler.__init__]: the object it leaves behind, or the
    exception it raises.  The extra keywords come as the list of items of
    [kwargs], in order; the defaults of the named parameters are [True],
    [None], ['UTF-8'], [3] and [None]. *)
Definition RequestHandler_init (session headers encoding retry delay : value)
    (kwargs : list (string * value)) : result instance :=
  if bound_twice kwargs then Raise TypeError else
  match setattr_all (mkInstance RequestHandlerClass ∅) kwargs with
  | Return self =>
      let self := assign "logger" (VLogger module_name) self in
      let session := if truthy session then NewSession else RequestsModule in
      let self := assign "session" (VSession session) self in
      let self := assign "methods" (VMethods (session_methods session)) self in
      let headers :=
        match headers with VNone => VDict HEADERS | _ => headers end in
      let self := assign "headers" headers self in
      let encoding :=
        match encoding with
        | VStr s => VTuple [s]
        | VList l => VTuple l
        | _ => encoding
        end in
      let self := assign "encodes" encoding self in
      let self := assign "retry" retry self in
      match delay with
      | VNone =>
          match getattr_FalseDelay self with
          | Return f =>
              match call0 f with
              | Return delay => Return (assign "delay" delay self)
              | Raise e => Raise e
              | OutOfFuel => OutOfFuel
              end
          | Raise e => Raise e
          | OutOfFuel => OutOfFuel
          end
      | _ => Return (assign "delay" delay self)
      end
  | Raise e => Raise e
  | OutOfFuel => OutOfFuel
  end.

(** The attributes the methods of a handler read, at the types they are
    used at. *)
Record RequestHandler := mkHandler {
  session : session_obj;
  methods : gmap string bound_method;
  headers : value;
  encodes : value;
  retry : Z;
  delay : Delay;
  logger : string
}.

(** The typed view of a constructed object; [None] when it is no
    [RequestHandler] any more, or an attribute is missing or holds an
    object its uses would not accept. *)
Definition handler_of (self : instance) : option RequestHandler :=
  let attrs := inst_dict self in
  match inst_class self, attrs !! "session", attrs !! "methods",
        attrs !! "headers", attrs !! "encodes", attrs !! "retry",
        attrs !! "delay", attrs !! "logger" with
  | RequestHandlerClass, Some (VSession s), Some (VMethods m), Some h, Some e,
    Some (VInt r), Some (VDelay d), Some (VLogger l) =>
      Some (mkHandler s m h e r d l)
  | _, _, _, _, _, _, _, _ => None
  end.

Definition set_delay (d : Delay) (h : RequestHandler) : RequestHandler :=
  mkHandler (session h) (methods h) (headers h) (encodes h) (retry h) d
            (logger h).

(** The three messages of the errors [request] raises. *)
Definition msg_incomplete : string := "参数不完整".

Definition msg_unknown_method (method : string) : string :=
  "未知的 HTTP 请求方式：" +:+ method.

Definition msg_http (status_code : Z) (url : string) : string :=
  "「HTTP异常」状态码：" +:+ pretty status_code +:+ "，请求地址：" +:+ url.

(** Number of transport calls in a trace. *)
Definition is_call (e : event) : bool :=
  match e with Call _ _ _ => true | _ => false end.

Definition calls (tr : list event) : list event := filter is_call tr.

Definition n_calls (tr : list event) : nat := length (calls tr).

Section Dispatch.
Context {platform : Platform}.
(** [str.lower] *)
Variable str_lower : string -> string.
(** The network behind the bound verb callables: what the [i]-th
    transport call of a run (counting from 0) does, given the callable
    and its arguments. *)
Variable transport : nat -> bound_method -> string -> gmap string value -> reply.

(** [_method(url, **kwargs)] *)
Definition call_method {O} (m : bound_method) (url : string)
    (kwargs : gmap string value) : M O Response.t :=
  fun w =>
    let w' := World (self w) (trace w ++ [Call m url kwargs]) in
    match transport (n_calls (trace w)) m url kwargs with
    | Responds r => (Return r, w')
    | Fails e => (Raise e, w')
    end.

(** The [while] loop of [request] and the [raise] after it.  Each
    unfolding of the loop test takes one unit of fuel. *)
Fixpoint request_loop (fuel : nat) (_method : bound_method) (url : string)
    (kwargs : gmap string value) (res : option Response.t)
    (retry_count : Z) : M RequestHandler Response.t :=
  self <- get_self ;;
  if retry_count <? retry self then
    match fuel with
    | O => out_of_fuel
    | S fuel =>
        let retry_count := retry_count + 1 in
        on_field delay set_delay action ;;;
        res <- call_method _method url kwargs ;;
        if negb (Response.status_code res =? 200) then
          request_loop fuel _method url kwargs (Some res) retry_count
        else
          ret res
    end
  else
    match res with
    | Some res => raise (RuntimeError (msg_http (Response.status_code res) url))
    | None => raise AttributeError
    end.

(** [if 'headers' not in kwargs: kwargs['headers'] = self.headers] *)
Definition default_headers (self : RequestHandler)
    (kwargs : gmap string value) : gmap string value :=
  match kwargs !! "headers" with
  | None => <[ "headers" := headers self ]> kwargs
  | Some _ => kwargs
  end.

(** Fuel that lets the loop of [request] run to its end. *)
Definition request_loop_fuel (self : RequestHandler) : nat :=
  Z.to_nat (retry self).

(** [RequestHandler.request] *)
Definition request (url method : string) (kwargs : gmap string value)
    : M RequestHandler Response.t :=
  if String.eqb method "" || String.eqb url "" then
    raise (RuntimeError msg_incomplete)
  else
    let method := str_lower method in
    self <- get_self ;;
    match methods self !! method with
    | None => raise (RuntimeError (msg_unknown_method method))
    | Some _method =>
        let kwargs := default_headers self kwargs in
        request_loop (request_loop_fuel self) _method url kwargs None 0
    end.

End Dispatch.

(** The per-verb wrappers [get], [options], [head], [post], [put], [patch]
    and [delete]: [request] with the method fixed. *)
Module Verb.
Section Verb.
Context {platform : Platform}.
Variable str_lower : string -> string.
Variable transport : nat -> bound_method -> string -> gmap string value -> reply.
Let request := request str_lower transport.

Definition get (url : string) kwargs := request url "get" kwargs.
Definition options (url : string) kwargs := request url "options" kwargs.
Definition head (url : string) kwargs := request url "head" kwargs.
Definition post (url : string) kwargs := request url "post" kwargs.
Definition put (url : string) kwargs := request url "put" kwargs.
Definition patch (url : string) kwargs := request url "patch" kwargs.
Definition delete (url : string) kwargs := request url "delete" kwargs.
End Verb.
End Verb.

(** ** RequestHandler.download *)

(** Total length of a list of chunks. *)
Definition total_length (chucks : list bytes) : Z :=
  foldr (fun chuck n => Z.of_nat (length chuck) + n) 0 chucks.

(** The non-empty chunks of a list, in order. *)
Definition non_empty (chucks : list bytes) : list bytes :=
  List.filter (fun chuck : bytes => negb (Nat.eqb (length chuck) 0)) chucks.

(** The chunks written to the file and the chunks pulled from the stream
    that a trace records, oldest first. *)
Definition writes (tr : list event) : list bytes :=
  omap (fun e => match e with Write data => Some data | _ => None end) tr.

Definition nexts (tr : list event) : list bytes :=
  omap (fun e => match e with Next chuck => Some chuck | _ => None end) tr.

Section Download.
Context {platform : Platform}.
Variable str_lower : string -> string.
Variable transport : nat -> bound_method -> string -> gmap string value -> reply.
(** [int(s)] on a string: the integer, or [None] where it raises
    [ValueError]. *)
Variable int : string -> option Z.
(** [os.path.split] *)
Variable os_path_split : string -> string * string.

(** Modelled from the spec: [FileSystemUtil.make_if_doesnt_exist] of
    [pyasst/common.py], which is not among the sources.  Given a
    directory path it creates the directory and its missing ancestors,
    and does nothing when the directory is there; it has no failure
    mode of its own in the spec. *)
Definition make_if_doesnt_exist {O} (dirpath : string) : M O unit :=
  emit (MakeDirs dirpath).

(** [key in d] and [d[key]] on a [CaseInsensitiveDict]. *)
Definition headers_contains (d : Response.CaseInsensitiveDict)
    (key : string) : bool :=
  match Response.store d !! str_lower key with
  | Some _ => true
  | None => false
  end.

Definition headers_getitem {O} (d : Response.CaseInsensitiveDict)
    (key : string) : M O string :=
  match Response.store d !! str_lower key with
  | Some kv => ret kv.2
  | None => raise (OtherError "KeyError" key)
  end.

Definition py_int {O} (s : string) : M O Z :=
  match int s with
  | Some n => ret n
  | None => raise ValueError
  end.

(** The [for chuck in res.iter_content(CHUCK_SIZE)] loop. *)
Fixpoint download_loop {O} (content_length : Z) (chucks : list bytes)
    (download_length : Z) : M O unit :=
  match chucks with
  | [] => ret tt
  | chuck :: chucks =>
      emit (Next chuck) ;;;
      (if negb (Nat.eqb (length chuck) 0) then emit (Write chuck)
       else ret tt) ;;;
      let download_length := download_length + Z.of_nat (length chuck) in
      if download_length >=? content_length then ret tt
      else download_loop content_length chucks download_length
  end.

(** The body of [with self.request(...) as res]. *)
Definition save_response {O} (res : Response.t) : M O unit :=
  if headers_contains (Response.headers res) "Content-Length" then
    v <- headers_getitem (Response.headers res) "Content-Length" ;;
    content_length <- py_int v ;;
    download_loop content_length (Response.iter_content res CHUCK_SIZE) 0
  else
    emit (Write (Response.content res)).

(** [open(save_path, 'wb')]: the file is opened, or the call raises. *)
Definition open_wb {O} (save_path : string) : M O unit :=
  match open_error save_path with
  | Some e => raise e
  | None => emit (Open save_path)
  end.

(** [RequestHandler.download] ([method] defaults to ['get']).  Passing
    [stream] among the extra keywords makes the call of [request] raise
    [TypeError], the keyword being given twice.  Writing to the open file
    and closing it are taken to succeed. *)
Definition download (url save_path method : string)
    (kwargs : gmap string value) : M RequestHandler unit :=
  let dirpath := (os_path_split save_path).1 in
  make_if_doesnt_exist dirpath ;;;
  open_wb save_path ;;;
  finally
    (res <- match kwargs !! "stream" with
            | Some _ => raise TypeError
            | None =>
                request str_lower transport url method
                        (<[ "stream" := VBool true ]> kwargs)
            end ;;
     finally (save_response res) (emit CloseResponse))
    (emit CloseFile).
End Download.

(** ** Concrete library functions and sample objects

    Instances of the section variables on which the model can be run:
    they agree with the Python functions on ASCII input. *)

(** A platform on which [time.sleep] refuses negative lengths and those
    beyond the 2^63 - 1 nanoseconds of a 64-bit clock, and [open] refuses
    the empty path. *)
Definition posix : Platform :=
  {| sleep_error secs :=
       if negb (Qle_bool 0 secs) then Some ValueError
       else if negb (Qle_bool secs (9223372036854775807 # 1000000000))
            then Some OverflowError
       else None;
     open_error path :=
       if String.eqb path "" then Some (OtherError "FileNotFoundError" path)
       else None |}.

Definition ascii_lower_char (c : Ascii.ascii) : Ascii.ascii :=
  let n := Ascii.nat_of_ascii c in
  if (Nat.leb 65 n && Nat.leb n 90)%bool then Ascii.ascii_of_nat (n + 32) else c.

Fixpoint ascii_lower (s : string) : string :=
  match s with
  | EmptyString => EmptyString
  | String c s => String (ascii_lower_char c) (ascii_lower s)
  end.

Definition digit_of_ascii (c : Ascii.ascii) : option Z :=
  let n := Ascii.nat_of_ascii c in
  if (Nat.leb 48 n && Nat.leb n 57)%bool then Some (Z.of_nat (n - 48))
  else None.

Fixpoint digits_value (acc : Z) (s : string) : option Z :=
  match s with
  | EmptyString => Some acc
  | String c s =>
      match digit_of_ascii c with
      | Some d => digits_value (10 * acc + d) s
      | None => None
      end
  end.

(** [int] on an optional sign followed by at least one decimal digit. *)
Definition int_of_digits (s : string) : option Z :=
  match s with
  | EmptyString => None
  | String c EmptyString => digits_value 0 s
  | String c s' =>
      if Nat.eqb (Ascii.nat_of_ascii c) 45 then Z.opp <$> digits_value 0 s'
      else if Nat.eqb (Ascii.nat_of_ascii c) 43 then digits_value 0 s'
      else digits_value 0 s
  end.

Definition is_slash (c : Ascii.ascii) : bool :=
  Nat.eqb (Ascii.nat_of_ascii c) 47.

Fixpoint drop_while {A} (p : A -> bool) (l : list A) : list A :=
  match l with
  | [] => []
  | x :: l' => if p x then drop_while p l' else l
  end.

Fixpoint take_while {A} (p : A -> bool) (l : list A) : list A :=
  match l with
  | [] => []
  | x :: l' => if p x then x :: take_while p l' else []
  end.

(** [posixpath.split]: the part up to the last slash, without its
    trailing slashes unless it is made of slashes only, and the rest. *)
Definition posix_split (p : string) : string * string :=
  let r := rev (String.list_ascii_of_string p) in
  let tail := rev (take_while (fun c => negb (is_slash c)) r) in
  let head := drop_while (fun c => negb (is_slash c)) r in
  let head := if forallb is_slash head then head else drop_while is_slash head in
  (String.string_of_list_ascii (rev head), String.string_of_list_ascii tail).

(** A network whose successive replies are listed, [dflt] once the list
    is used up. *)
Definition scripted (replies : list reply) (dflt : reply)
    : nat -> bound_method -> string -> gmap string value -> reply :=
  fun i _ _ _ => nth i replies dflt.

Definition mk_headers (items : list (string * string))
    : Response.CaseInsensitiveDict :=
  {| Response.store :=
       foldl (fun m kv => <[ ascii_lower kv.1 := kv ]> m) ∅ items |}.

(** A response that streams [chucks] whatever the chunk size asked for. *)
Definition mk_response (status : Z) (items : list (string * string))
    (chucks : list bytes) : Response.t :=
  {| Response.status_code := status;
     Response.headers := mk_headers items;
     Response.content := concat chucks;
     Response.iter_content := fun _ => chucks |}.

(** [RequestHandler(retry=r, delay=d)] at the typed view. *)
Definition sample_handler (r : Z) (d : Delay) : RequestHandler :=
  mkHandler NewSession (session_methods NewSession) (VDict HEADERS)
            (VTuple ["UTF-8"%string]) r d module_name.

(** [RequestHandler()], all parameters at their defaults. *)
Definition default_attrs : result instance :=
  RequestHandler_init (VBool true) VNone (VStr "UTF-8") (VInt 3) VNone [].

Definition default_handler : RequestHandler :=
  sample_handler 3 (Delay_init FalseDelayClass 10 1).

(** Responses without headers or body, and a network that always
    answers with the same response. *)
Definition plain_response (status : Z) : Response.t := mk_response status [] [].

Definition always (r : Response.t)
    : nat -> bound_method -> string -> gmap string value -> reply :=
  scripted [] (Responds r).

(** A fresh world around a handler: nothing has happened yet. *)
Definition fresh (h : RequestHandler) : world RequestHandler := World h [].

(** ** Vocabulary of the statements *)

(** The verbs [__init__] binds. *)
Definition verbs : list string :=
  ["get"; "options"; "head"; "post"; "put"; "patch"; "delete"]%string.

(** Whether [time.sleep] accepts a length. *)
Definition sleep_accepts {platform : Platform} (secs : Q) : bool :=
  match sleep_error secs with
  | None => true
  | Some _ => false
  end.

(** A throttle whose [action] cannot raise: the no-op variant, or a
    counting one with a non-zero step and a pause length that
    [time.sleep] accepts. *)
Definition well_formed {platform : Platform} (d : Delay) : bool :=
  match cls d with
  | FalseDelayClass => true
  | DelayClass => negb (step d =? 0) && sleep_accepts (sleep d)
  end.

(** The throttle after one activation, and the pause that activation
    takes (as a trace), for a well-formed throttle. *)
Definition ticked (d : Delay) : Delay :=
  match cls d with
  | DelayClass => set_counter (counter d + 1) d
  | FalseDelayClass => d
  end.

Definition pause_of (d : Delay) : list event :=
  match cls d with
  | DelayClass =>
      if (counter d + 1) mod step d =? 0 then [Sleep (sleep d)] else []
  | FalseDelayClass => []
  end.

(** The world after one transport attempt, and after [n] of them. *)
Definition after_attempt (m : bound_method) (url : string)
    (kwargs : gmap string value) (w : world RequestHandler)
    : world RequestHandler :=
  World (set_delay (ticked (delay (self w))) (self w))
        (trace w ++ pause_of (delay (self w)) ++ [Call m url kwargs]).

Fixpoint after_attempts (n : nat) (m : bound_method) (url : string)
    (kwargs : gmap string value) (w : world RequestHandler)
    : world RequestHandler :=
  match n with
  | O => w
  | S n => after_attempts n m url kwargs (after_attempt m url kwargs w)
  end.

(** The [k] transport calls that follow the first [n0] all return a
    response whose status code is not 200. *)
Definition fails_first (k : nat)
    (transport : nat -> bound_method -> string -> gmap string value -> reply)
    (n0 : nat) (m : bound_method) (url : string)
    (kwargs : gmap string value) : Prop :=
  forall i : nat, (i < k)%nat ->
    exists r, transport (n0 + i)%nat m url kwargs = Responds r /\
              Response.status_code r <> 200.

(** The pauses a trace records, oldest first. *)
Definition sleeps (tr : list event) : list Q :=
  omap (fun e => match e with Sleep secs => Some secs | _ => None end) tr.

(** [n] activations of a throttle in a row. *)
Fixpoint activations {platform : Platform} (n : nat) : M Delay unit :=
  match n with
  | O => ret tt
  | S n => Delay_action ;;; activations n
  end.

(** The world in which [download] calls [request]: the directory has
    been made and the file opened. *)
Definition opened (os_path_split : string -> string * string)
    (save_path : string) (w : world RequestHandler) : world RequestHandler :=
  World (self w)
        (trace w ++ [MakeDirs (os_path_split save_path).1; Open save_path]).

(** The effects of reading the given chunks in the download loop: each
    is pulled from the stream, and written when it is not empty. *)
Definition chuck_events (chucks : list bytes) : list event :=
  flat_map (fun chuck : bytes =>
              Next chuck ::
              if negb (Nat.eqb (length chuck) 0) then [Write chuck] else [])
           chucks.

(** How many chunks the download loop reads: up to and including the
    first one that takes the running length to the declared length, or
    all of them. *)
Fixpoint consumed (content_length : Z) (chucks : list bytes)
    (download_length : Z) : nat :=
  match chucks with
  | [] => 0
  | chuck :: chucks =>
      let download_length := download_length + Z.of_nat (length chuck) in
      if download_length >=? content_length then 1
      else S (consumed content_length chucks download_length)
  end.

(** A response of status 200 that declares a content length of 100 and
    streams three chunks of 40 bytes, and one that declares no length. *)
Definition chuck40 (b : Byte.byte) : bytes := replicate 40 b.

Definition three_chucks : list bytes :=
  [chuck40 Byte.x61; chuck40 Byte.x62; chuck40 Byte.x63].

Definition declared_response : Response.t :=
  mk_response 200 [("Content-Length", "100")]%string three_chucks.

Definition undeclared_response : Response.t :=
  mk_response 200 [("Content-Type", "text/plain")]%string three_chucks.

(** A handler with three retries and a counting throttle that pauses one
    second on every second activation, and the callable its [get] binds. *)
Definition throttled_handler : RequestHandler :=
  sample_handler 3 (Delay_init DelayClass 2 1).

Definition get_method : bound_method := BoundMethod NewSession "get".

(** Networks that answer 500, 503 and then 200, and that answer 500 and
    then refuse the connection. *)
Definition recovering : nat -> bound_method -> string -> gmap string value -> reply :=
  scripted [Responds (plain_response 500); Responds (plain_response 503)]
           (Responds (plain_response 200)).

Definition refused : exn := OtherError "ConnectionError" "connection refused".

Definition breaking : nat -> bound_method -> string -> gmap string value -> reply :=
  scripted [Responds (plain_response 500)] (Fails refused).

(** The world in which [request] hands a response back to a download to
    [/tmp/out/f.bin] started on [RequestHandler()] in a fresh world. *)
Definition download_world (r : Response.t) : world RequestHandler :=
  (request (platform := posix) ascii_lower (always r) "http://x/f" "get"
           (<[ "stream" := VBool true ]> ∅)
           (opened posix_split "/tmp/out/f.bin" (fresh default_handler))).2.

(** Effects that are neither a write to the file nor a read of the
    stream. *)
Definition no_file_io (evs : list event) : Prop :=
  writes evs = [] /\ nexts evs = [].

(** ** RequestHandler.html and RequestHandler.json *)

(** [s.replace(old, new)] for a non-empty [old]: the occurrences of [old]
    are found from left to right without overlap.  [skip] counts the
    characters of a matched occurrence still to be passed over. *)
Fixpoint replace_from (old new : string) (skip : nat) (s : string) : string :=
  match s with
  | EmptyString => EmptyString
  | String c s' =>
      match skip with
      | S skip => replace_from old new skip s'
      | O =>
          if String.prefix old s then
            new +:+ replace_from old new (String.length old - 1) s'
          else String c (replace_from old new 0 s')
      end
  end.

Definition str_replace (s old new : string) : string := replace_from old new 0 s.

(** Turn the outcome of a pure library call into a computation. *)
Definition lift {O A} (r : result A) : M O A := fun w => (r, w).

Section Text.
Context {platform : Platform}.
Variable str_lower : string -> string.
Variable transport : nat -> bound_method -> string -> gmap string value -> reply.
(** [StringUtil.decode(content, encodes, encoding)] of [pyasst/common.py],
    which is not among the sources: it returns the text or raises. *)
Variable decode : bytes -> value -> option string -> result string.
(** [json.loads], into some type [J] of parsed values. *)
Variable J : Type.
Variable json_loads : string -> result J.

(** [RequestHandler.html] ([encoding] defaults to [None], [uncomment] to
    [False]). *)
Definition html (url : string) (encoding : option string) (uncomment : bool)
    (kwargs : gmap string value) : M RequestHandler string :=
  res <- request str_lower transport url "get" kwargs ;;
  self <- get_self ;;
  html <- lift (decode (Response.content res) (encodes self) encoding) ;;
  if uncomment then
    ret (str_replace (str_replace html "<!--" "") "-->" "")
  else ret html.

(** [RequestHandler.json] ([method] defaults to ['post'], [encoding] to
    [None]). *)
Definition json (url method : string) (encoding : option string)
    (kwargs : gmap string value) : M RequestHandler J :=
  res <- request str_lower transport url method kwargs ;;
  self <- get_self ;;
  content <- lift (decode (Response.content res) (encodes self) encoding) ;;
  lift (json_loads content).
End Text.

(** ** Further vocabulary *)

(** The settings of a handler that no method assigns: everything but the
    counter of its throttle. *)
Definition same_settings (h h' : RequestHandler) : Prop :=
  session h' = session h /\ methods h' = methods h /\
  headers h' = headers h /\ encodes h' = encodes h /\
  retry h' = retry h /\ logger h' = logger h /\
  cls (delay h') = cls (delay h) /\ step (delay h') = step (delay h) /\
  sleep (delay h') = sleep (delay h).


Definition is_file_io (e : event) : bool :=
  match e with Next _ | Write _ => true | _ => false end.

(** A string in which none of the characters of [avoid] occurs. *)
Fixpoint free_of (avoid : list Ascii.ascii) (s : string) : bool :=
  match s with
  | EmptyString => true
  | String c s' =>
      negb (existsb (Ascii.eqb c) avoid) && free_of avoid s'
  end.

(** The characters [!] and [-]: no comment delimiter can be read in a
    text without them. *)
Definition delimiter_marks : list Ascii.ascii :=
  [Ascii.ascii_of_nat 33; Ascii.ascii_of_nat 45].

(** A decoder that reads bytes as they are, a parser that keeps the text,
    and a handler whose throttle has a step of 0. *)
Definition latin1 (content : bytes) (encodes : value)
    (encoding : option string) : result string :=
  Return (String.string_of_list_byte content).

Definition keep_text (s : string) : result string := Return s.

Definition stuck_handler : RequestHandler :=
  sample_handler 3 (Delay_init DelayClass 0 1).

(** A response whose declared length does not read as an integer, and
    one that declares more than it streams. *)
Definition garbled_response : Response.t :=
  mk_response 200 [("Content-Length", "many")]%string three_chucks.

Definition short_response : Response.t :=
  mk_response 200 [("content-length", "1000")]%string three_chucks.

(** A page with one comment, as bytes. *)
Definition page_response : Response.t :=
  mk_response 200 []
    [String.list_byte_of_string "<p>a</p><!--hidden--><p>b</p>"].

(** From [w] to [w'] the trace has only grown, and all the transport
    calls added went to the callable [m]. *)
Definition calls_only (m : bound_method) (w w' : world RequestHandler) : Prop :=
  exists evs,
    trace w' = trace w ++ evs /\
    forall m' url kw, Call m' url kw ∈ evs -> m' = m.

(** The string [s] begins with the character [c]. *)
Definition begins_with (c : Ascii.ascii) (s : string) : bool :=
  match s with
  | String b _ => Ascii.eqb b c
  | EmptyString => false
  end.

(** A handler that allows no attempt at all, and a counting throttle
    that pauses two seconds on every third activation, with 7 activations
    behind it. *)
Definition idle_handler : RequestHandler :=
  sample_handler 0 (Delay_init FalseDelayClass 10 1).

Definition worn_delay : Delay := mkDelay DelayClass 7 3 2.

Section Properties.
Context {platform : Platform}.

(** ** The throttle *)

Lemma Delay_action_run (d : Delay) (tr : list event) :
  step d <> 0 ->
  sleep_error (sleep d) = None ->
  Delay_action (World d tr) =
    (Return tt,
     World (set_counter (counter d + 1) d)
           (tr ++ if (counter d + 1) mod step d =? 0
                  then [Sleep (sleep d)] else [])).
Proof.
  intros Hstep Hsleep.
  unfold Delay_action, bind, get_self, set_self, py_mod, time_sleep; simpl.
  apply Z.eqb_neq in Hstep. rewrite Hstep. unfold ret; simpl.
  destruct ((counter d + 1) mod step d =? 0).
  - rewrite Hsleep. reflexivity.
  - rewrite app_nil_r. reflexivity.
Qed.

Lemma action_run (d : Delay) (tr : list event) :
  well_formed d = true ->
  action (World d tr) = (Return tt, World (ticked d) (tr ++ pause_of d)).
Proof.
  unfold well_formed, sleep_accepts, action, ticked, pause_of, bind, get_self;
    simpl.
  destruct (cls d) eqn:Hcls.
  - intros [Hstep Hsleep]%andb_true_iff.
    apply negb_true_iff, Z.eqb_neq in Hstep.
    apply Delay_action_run; [assumption|].
    destruct (sleep_error (sleep d)); [discriminate|reflexivity].
  - intros _. unfold FalseDelay_action, ret. rewrite app_nil_r.
    destruct d; reflexivity.
Qed.

Lemma well_formed_ticked (d : Delay) :
  well_formed d = true -> well_formed (ticked d) = true.
Proof.
  unfold well_formed, ticked. destruct (cls d) eqn:Hcls; simpl; rewrite ?Hcls; auto.
Qed.

Lemma n_calls_app (tr1 tr2 : list event) :
  n_calls (tr1 ++ tr2) = (n_calls tr1 + n_calls tr2)%nat.
Proof. unfold n_calls, calls. rewrite filter_app, length_app. reflexivity. Qed.

Lemma n_calls_pause_of (d : Delay) : n_calls (pause_of d) = 0%nat.
Proof.
  unfold pause_of. destruct (cls d); [|reflexivity].
  destruct (_ =? 0); reflexivity.
Qed.

(** ** The retry loop *)

Section DispatchFacts.
Variable str_lower : string -> string.
Variable transport : nat -> bound_method -> string -> gmap string value -> reply.

Lemma n_calls_after_attempt m url kw (w : world RequestHandler) :
  n_calls (trace (after_attempt m url kw w)) = S (n_calls (trace w)).
Proof.
  unfold after_attempt; simpl.
  rewrite !n_calls_app, n_calls_pause_of. unfold n_calls at 2; simpl. lia.
Qed.

Lemma after_attempts_S m url kw n (w : world RequestHandler) :
  after_attempts (S n) m url kw w =
  after_attempt m url kw (after_attempts n m url kw w).
Proof.
  revert w. induction n as [|n IH]; intros w; [reflexivity|].
  change (after_attempts (S (S n)) m url kw w)
    with (after_attempts (S n) m url kw (after_attempt m url kw w)).
  rewrite IH. reflexivity.
Qed.

(** The loop leaves through the [raise] once the counter has reached
    the limit. *)
Lemma request_loop_exit fuel m url kw r rc (w : world RequestHandler) :
  retry (self w) <= rc ->
  request_loop transport fuel m url kw (Some r) rc w =
    (Raise (RuntimeError (msg_http (Response.status_code r) url)), w).
Proof.
  intros Hrc. apply Z.ltb_ge in Hrc.
  destruct fuel; simpl; unfold bind, get_self; rewrite Hrc; reflexivity.
Qed.

(** One turn of the loop with a throttle that does not raise. *)
Lemma request_loop_attempt fuel m url kw res rc (w : world RequestHandler) :
  rc < retry (self w) ->
  well_formed (delay (self w)) = true ->
  request_loop transport (S fuel) m url kw res rc w =
    match transport (n_calls (trace w)) m url kw with
    | Responds r =>
        if negb (Response.status_code r =? 200) then
          request_loop transport fuel m url kw (Some r) (rc + 1)
                       (after_attempt m url kw w)
        else (Return r, after_attempt m url kw w)
    | Fails e => (Raise e, after_attempt m url kw w)
    end.
Proof.
  intros Hrc Hwf. apply Z.ltb_lt in Hrc.
  simpl. unfold bind at 1, get_self at 1. rewrite Hrc.
  unfold bind at 1, on_field; simpl. rewrite (action_run _ _ Hwf); simpl.
  unfold bind at 1, call_method; simpl.
  rewrite n_calls_app, n_calls_pause_of, Nat.add_0_r.
  unfold after_attempt. rewrite <- app_assoc.
  destruct (transport _ _ _ _) as [r|e]; [|reflexivity].
  destruct (negb _); reflexivity.
Qed.

(** [k] failed attempts in a row take the loop [k] turns further. *)
Lemma request_loop_fails_first m url kw k :
  forall fuel res rc (w : world RequestHandler),
    well_formed (delay (self w)) = true ->
    fails_first k transport (n_calls (trace w)) m url kw ->
    rc + Z.of_nat k <= retry (self w) ->
    exists res',
      request_loop transport (k + fuel) m url kw res rc w =
        request_loop transport fuel m url kw res' (rc + Z.of_nat k)
                     (after_attempts k m url kw w) /\
      match k with
      | O => res' = res
      | S j => exists r, res' = Some r /\
                 transport (n_calls (trace w) + j)%nat m url kw = Responds r /\
                 Response.status_code r <> 200
      end.
Proof.
  induction k as [|k IH]; intros fuel res rc w Hwf Hfail Hrc.
  - exists res. rewrite Z.add_0_r. split; reflexivity.
  - destruct (Hfail 0%nat ltac:(lia)) as (r0 & Hr0 & Hst0).
    rewrite Nat.add_0_r in Hr0.
    change (S k + fuel)%nat with (S (k + fuel)).
    rewrite request_loop_attempt by (assumption || lia).
    rewrite Hr0. apply Z.eqb_neq in Hst0 as Hst0'. rewrite Hst0'; simpl.
    destruct (IH fuel (Some r0) (rc + 1) (after_attempt m url kw w))
      as (res' & Heq & Hlast).
    + simpl. apply well_formed_ticked, Hwf.
    + intros i Hi. rewrite n_calls_after_attempt.
      destruct (Hfail (S i) ltac:(lia)) as (r & Hr & Hst).
      exists r. split; [|assumption].
      rewrite <- Hr. f_equal. lia.
    + simpl. lia.
    + exists res'. split.
      * rewrite Heq. f_equal. lia.
      * destruct k as [|j].
        -- subst res'. exists r0. rewrite Nat.add_0_r. auto.
        -- destruct Hlast as (r & -> & Hr & Hst).
           exists r. split; [reflexivity|]. split; [|assumption].
           rewrite n_calls_after_attempt in Hr. rewrite <- Hr. f_equal. lia.
Qed.
End DispatchFacts.

Section RequestFacts.
Variable str_lower : string -> string.
Variable transport : nat -> bound_method -> string -> gmap string value -> reply.

Lemma n_calls_after_attempts m url kw n (w : world RequestHandler) :
  n_calls (trace (after_attempts n m url kw w)) = (n_calls (trace w) + n)%nat.
Proof.
  induction n as [|n IH]; [simpl; lia|].
  rewrite after_attempts_S, n_calls_after_attempt, IH. lia.
Qed.

Lemma cls_after_attempts m url kw n (w : world RequestHandler) :
  cls (delay (self (after_attempts n m url kw w))) = cls (delay (self w)).
Proof.
  induction n as [|n IH]; [reflexivity|].
  rewrite after_attempts_S. simpl. unfold ticked.
  destruct (cls (delay (self (after_attempts n m url kw w)))) eqn:E;
    simpl; congruence.
Qed.

Lemma calls_after_attempts m url kw n (w : world RequestHandler) :
  calls (trace (after_attempts n m url kw w)) =
    calls (trace w) ++ replicate n (Call m url kw).
Proof.
  induction n as [|n IH]; [simpl; rewrite app_nil_r; reflexivity|].
  rewrite after_attempts_S, replicate_S_end, app_assoc, <- IH.
  unfold after_attempt, calls; simpl. rewrite !filter_app.
  assert (Hp : forall d, filter is_call (pause_of d) = []).
  { intros d. unfold pause_of. destruct (cls d); [|reflexivity].
    destruct (_ =? 0); reflexivity. }
  rewrite Hp. reflexivity.
Qed.

(** A counting throttle has counted every attempt. *)
Lemma counter_after_attempts m url kw n (w : world RequestHandler) :
  cls (delay (self w)) = DelayClass ->
  counter (delay (self (after_attempts n m url kw w))) =
    counter (delay (self w)) + Z.of_nat n.
Proof.
  intros Hcls. induction n as [|n IH]; [simpl; lia|].
  rewrite after_attempts_S. simpl. unfold ticked.
  rewrite cls_after_attempts, Hcls. simpl. rewrite IH. lia.
Qed.

(** The no-op throttle is left as it was. *)
Lemma delay_after_attempts_noop m url kw n (w : world RequestHandler) :
  cls (delay (self w)) = FalseDelayClass ->
  delay (self (after_attempts n m url kw w)) = delay (self w).
Proof.
  intros Hcls. induction n as [|n IH]; [reflexivity|].
  rewrite after_attempts_S. simpl. unfold ticked.
  rewrite cls_after_attempts, Hcls. exact IH.
Qed.

(** Past the two checks, [request] is its loop. *)
Lemma request_valid url method kwargs m (w : world RequestHandler) :
  url <> ""%string -> method <> ""%string ->
  methods (self w) !! str_lower method = Some m ->
  request str_lower transport url method kwargs w =
    request_loop transport (Z.to_nat (retry (self w))) m url
                 (default_headers (self w) kwargs) None 0 w.
Proof.
  intros Hurl Hmethod Hm. unfold request.
  apply String.eqb_neq in Hurl, Hmethod. rewrite Hurl, Hmethod. simpl.
  unfold bind, get_self. rewrite Hm. reflexivity.
Qed.

Lemma retry_after_attempts m url kw n (w : world RequestHandler) :
  retry (self (after_attempts n m url kw w)) = retry (self w).
Proof.
  revert w. induction n as [|n IH]; intros w; [reflexivity|].
  simpl. rewrite IH. reflexivity.
Qed.

Lemma well_formed_after_attempts m url kw n (w : world RequestHandler) :
  well_formed (delay (self w)) = true ->
  well_formed (delay (self (after_attempts n m url kw w))) = true.
Proof.
  revert w. induction n as [|n IH]; intros w Hwf; [assumption|].
  simpl. apply IH. simpl. apply well_formed_ticked, Hwf.
Qed.

(** Every attempt fails: the loop runs [retry] times and raises. *)
Lemma request_all_fail url method kwargs m (w : world RequestHandler) :
  let kw := default_headers (self w) kwargs in
  let R := Z.to_nat (retry (self w)) in
  url <> ""%string -> method <> ""%string ->
  methods (self w) !! str_lower method = Some m ->
  well_formed (delay (self w)) = true ->
  1 <= retry (self w) ->
  fails_first R transport (n_calls (trace w)) m url kw ->
  exists last,
    transport (n_calls (trace w) + (R - 1))%nat m url kw = Responds last /\
    Response.status_code last <> 200 /\
    request str_lower transport url method kwargs w =
      (Raise (RuntimeError (msg_http (Response.status_code last) url)),
       after_attempts R m url kw w).
Proof.
  intros kw R Hurl Hmethod Hm Hwf HR Hfail.
  rewrite (request_valid _ _ _ m) by assumption. fold kw R.
  destruct (request_loop_fails_first transport m url kw R 0%nat None 0 w)
    as (res' & Heq & Hlast); [assumption|assumption|subst R; lia|].
  rewrite Nat.add_0_r in Heq. rewrite Heq.
  assert (HR' : Z.of_nat R = retry (self w)) by (subst R; lia).
  destruct R as [|j]; [lia|].
  destruct Hlast as (r & -> & Hr & Hst).
  exists r. replace (S j - 1)%nat with j by lia.
  split; [assumption|]. split; [assumption|].
  apply request_loop_exit. rewrite retry_after_attempts. lia.
Qed.

(** [k] failed attempts, then the reply of attempt [k + 1] decides. *)
Lemma request_after_failures url method kwargs m k (w : world RequestHandler) :
  let kw := default_headers (self w) kwargs in
  url <> ""%string -> method <> ""%string ->
  methods (self w) !! str_lower method = Some m ->
  well_formed (delay (self w)) = true ->
  Z.of_nat k < retry (self w) ->
  fails_first k transport (n_calls (trace w)) m url kw ->
  request str_lower transport url method kwargs w =
    match transport (n_calls (trace w) + k)%nat m url kw with
    | Responds r =>
        if negb (Response.status_code r =? 200) then
          request_loop transport (Z.to_nat (retry (self w)) - S k) m url kw
                       (Some r) (Z.of_nat (S k))
                       (after_attempts (S k) m url kw w)
        else (Return r, after_attempts (S k) m url kw w)
    | Fails e => (Raise e, after_attempts (S k) m url kw w)
    end.
Proof.
  intros kw Hurl Hmethod Hm Hwf Hk Hfail.
  rewrite (request_valid _ _ _ m) by assumption. fold kw.
  set (R := Z.to_nat (retry (self w))).
  destruct (request_loop_fails_first transport m url kw k (S (R - S k))
              None 0 w) as (res' & Heq & _); [assumption|assumption|lia|].
  replace (k + S (R - S k))%nat with R in Heq by (subst R; lia).
  rewrite Heq, request_loop_attempt.
  - rewrite n_calls_after_attempts, after_attempts_S.
    destruct (transport _ _ _ _) as [r|e]; [|reflexivity].
    destruct (negb _); [|reflexivity]. f_equal. lia.
  - rewrite retry_after_attempts. lia.
  - apply well_formed_after_attempts, Hwf.
Qed.
End RequestFacts.

(** ** Retry behaviour of [request] *)

Section RequestTheorems.
Variable str_lower : string -> string.
Variable transport : nat -> bound_method -> string -> gmap string value -> reply.

(** C1.  With a retry limit [R >= 1], a request that passes the argument
    checks and whose [R] transport calls all return a response with a
    status code other than 200 issues exactly [R] transport calls (all
    for the bound verb, the URL and the options of the request) and then
    raises the [RuntimeError] whose message is the text of the source
    with the status code of the last response, in decimal, and the
    requested URL filled in.  The throttle is assumed not to raise: its
    step is not 0 and [time.sleep] accepts its pause length. *)
Theorem request_exhausts_retries url method kwargs m
    (w : world RequestHandler) :
  let kw := default_headers (self w) kwargs in
  let R := retry (self w) in
  url <> ""%string -> method <> ""%string ->
  methods (self w) !! str_lower method = Some m ->
  well_formed (delay (self w)) = true ->
  1 <= R ->
  fails_first (Z.to_nat R) transport (n_calls (trace w)) m url kw ->
  exists last w',
    request str_lower transport url method kwargs w =
      (Raise (RuntimeError
                ("「HTTP异常」状态码：" +:+ pretty (Response.status_code last) +:+
                 "，请求地址：" +:+ url)), w') /\
    transport (n_calls (trace w) + (Z.to_nat R - 1))%nat m url kw =
      Responds last /\
    Z.of_nat (n_calls (trace w')) = Z.of_nat (n_calls (trace w)) + R /\
    calls (trace w') =
      calls (trace w) ++ replicate (Z.to_nat R) (Call m url kw).
Proof.
  intros kw R Hurl Hmethod Hm Hwf HR Hfail.
  destruct (request_all_fail str_lower transport url method kwargs m w)
    as (last & Hlast & _ & Hreq); try assumption.
  exists last, (after_attempts (Z.to_nat R) m url kw w).
  split; [exact Hreq|]. split; [exact Hlast|]. split.
  - rewrite n_calls_after_attempts. lia.
  - apply calls_after_attempts.
Qed.

(** C2.  With a retry limit [R >= 1] and [k < R], a request that passes
    the argument checks, whose first [k] transport calls return
    responses with a status code other than 200 and whose call [k + 1]
    returns a response with status code 200, returns that response and
    has issued exactly [k + 1] transport calls.  The throttle is assumed
    not to raise: its step is not 0 and [time.sleep] accepts its pause
    length. *)
Theorem request_returns_first_200 url method kwargs m (k : nat) r
    (w : world RequestHandler) :
  let kw := default_headers (self w) kwargs in
  url <> ""%string -> method <> ""%string ->
  methods (self w) !! str_lower method = Some m ->
  well_formed (delay (self w)) = true ->
  Z.of_nat k < retry (self w) ->
  fails_first k transport (n_calls (trace w)) m url kw ->
  transport (n_calls (trace w) + k)%nat m url kw = Responds r ->
  Response.status_code r = 200 ->
  exists w',
    request str_lower transport url method kwargs w = (Return r, w') /\
    n_calls (trace w') = (n_calls (trace w) + (k + 1))%nat /\
    calls (trace w') = calls (trace w) ++ replicate (k + 1) (Call m url kw).
Proof.
  intros kw Hurl Hmethod Hm Hwf Hk Hfail Hr Hst.
  exists (after_attempts (S k) m url kw w).
  rewrite (request_after_failures str_lower transport url method kwargs m k)
    by assumption.
  fold kw. rewrite Hr, Hst. simpl negb. cbv iota.
  replace (k + 1)%nat with (S k) by lia.
  split; [reflexivity|]. split.
  - apply n_calls_after_attempts.
  - apply calls_after_attempts.
Qed.

(** C6.  When a transport call of a request raises an exception (after
    [k] calls that returned responses with a status code other than 200,
    [k] below the retry limit), the request raises that very exception
    object, not one of its own, and has issued exactly [k + 1] transport
    calls: none follows the one that raised, however many attempts were
    left.  The throttle is assumed not to raise: its step is not 0 and
    [time.sleep] accepts its pause length. *)
Theorem request_propagates_transport_exception url method kwargs m
    (k : nat) (e : exn) (w : world RequestHandler) :
  let kw := default_headers (self w) kwargs in
  url <> ""%string -> method <> ""%string ->
  methods (self w) !! str_lower method = Some m ->
  well_formed (delay (self w)) = true ->
  Z.of_nat k < retry (self w) ->
  fails_first k transport (n_calls (trace w)) m url kw ->
  transport (n_calls (trace w) + k)%nat m url kw = Fails e ->
  exists w',
    request str_lower transport url method kwargs w = (Raise e, w') /\
    n_calls (trace w') = (n_calls (trace w) + (k + 1))%nat /\
    calls (trace w') = calls (trace w) ++ replicate (k + 1) (Call m url kw).
Proof.
  intros kw Hurl Hmethod Hm Hwf Hk Hfail He.
  exists (after_attempts (S k) m url kw w).
  rewrite (request_after_failures str_lower transport url method kwargs m k)
    by assumption.
  fold kw. rewrite He.
  replace (k + 1)%nat with (S k) by lia.
  split; [reflexivity|]. split.
  - apply n_calls_after_attempts.
  - apply calls_after_attempts.
Qed.
End RequestTheorems.

(** ** Argument checks of [request] *)

Lemma session_methods_None (s : session_obj) (method : string) :
  method ∉ verbs -> session_methods s !! method = None.
Proof.
  intros Hnot. unfold session_methods.
  repeat (rewrite lookup_insert_ne;
          [|intros <-; apply Hnot; unfold verbs; set_solver]).
  apply lookup_empty.
Qed.

Lemma messages_differ (method : string) (status_code : Z) (url : string) :
  msg_incomplete <> msg_unknown_method method /\
  msg_incomplete <> msg_http status_code url /\
  msg_unknown_method method <> msg_http status_code url.
Proof.
  unfold msg_incomplete, msg_unknown_method, msg_http.
  repeat split; simpl; discriminate.
Qed.

Section ValidationFacts.
Variable str_lower : string -> string.
Variable transport : nat -> bound_method -> string -> gmap string value -> reply.

Lemma request_incomplete url method kwargs (w : world RequestHandler) :
  url = ""%string \/ method = ""%string ->
  request str_lower transport url method kwargs w =
    (Raise (RuntimeError msg_incomplete), w).
Proof.
  intros [-> | ->]; unfold request; simpl.
  - rewrite orb_true_r. reflexivity.
  - reflexivity.
Qed.

Lemma request_unknown_method url method kwargs (w : world RequestHandler) :
  url <> ""%string -> method <> ""%string ->
  methods (self w) !! str_lower method = None ->
  request str_lower transport url method kwargs w =
    (Raise (RuntimeError (msg_unknown_method (str_lower method))), w).
Proof.
  intros Hurl Hmethod Hm. unfold request.
  apply String.eqb_neq in Hurl, Hmethod. rewrite Hurl, Hmethod. simpl.
  unfold bind, get_self. rewrite Hm. reflexivity.
Qed.
End ValidationFacts.

Section ValidationTheorems.
Variable str_lower : string -> string.
Variable transport : nat -> bound_method -> string -> gmap string value -> reply.

(** C4, as amended.  A request with an empty URL or an empty method
    raises the [RuntimeError] with the incomplete-arguments message; a
    request with a non-empty URL and a non-empty method whose lower-cased
    form is none of the seven verbs bound by the constructor raises the
    [RuntimeError] with the unknown-method message followed by the
    lower-cased method.  In both cases the world is left as it was, so no
    transport call has been issued.  These two errors and the one raised
    when the retries are used up are objects of one class,
    [RuntimeError]; what tells them apart is the message, and the three
    messages are pairwise different. *)
Theorem request_rejects_bad_arguments url method kwargs
    (w : world RequestHandler) :
  (url = ""%string \/ method = ""%string ->
   request str_lower transport url method kwargs w =
     (Raise (RuntimeError msg_incomplete), w)) /\
  (url <> ""%string -> method <> ""%string ->
   (exists s, methods (self w) = session_methods s) ->
   str_lower method ∉ verbs ->
   request str_lower transport url method kwargs w =
     (Raise (RuntimeError (msg_unknown_method (str_lower method))), w)) /\
  (forall status_code url',
     exn_class (RuntimeError msg_incomplete) =
       exn_class (RuntimeError (msg_http status_code url')) /\
     exn_class (RuntimeError (msg_unknown_method (str_lower method))) =
       exn_class (RuntimeError (msg_http status_code url')) /\
     msg_incomplete <> msg_unknown_method (str_lower method) /\
     msg_incomplete <> msg_http status_code url' /\
     msg_unknown_method (str_lower method) <> msg_http status_code url').
Proof.
  split; [|split].
  - apply request_incomplete.
  - intros Hurl Hmethod [s Hs] Hnot.
    apply request_unknown_method; [assumption..|].
    rewrite Hs. apply session_methods_None, Hnot.
  - intros status_code url'.
    split; [reflexivity|]. split; [reflexivity|]. apply messages_differ.
Qed.

(** C8.  A request that fails the argument checks (empty URL, empty
    method, or a method with no binding) raises and leaves the throttle
    as it was, counter included, and the trace as it was, so no pause
    has been taken: the check comes before the first activation. *)
Theorem request_invalid_leaves_throttle url method kwargs
    (w : world RequestHandler) :
  url = ""%string \/ method = ""%string \/
    methods (self w) !! str_lower method = None ->
  exists e w',
    request str_lower transport url method kwargs w = (Raise e, w') /\
    counter (delay (self w')) = counter (delay (self w)) /\
    delay (self w') = delay (self w) /\
    sleeps (trace w') = sleeps (trace w) /\
    trace w' = trace w.
Proof.
  intros Hbad.
  destruct (decide (url = ""%string \/ method = ""%string)) as [Hempty|Hfull].
  - exists (RuntimeError msg_incomplete), w.
    rewrite request_incomplete by assumption. auto.
  - destruct Hbad as [Hurl|[Hmethod|Hm]]; [tauto..|].
    exists (RuntimeError (msg_unknown_method (str_lower method))), w.
    rewrite request_unknown_method by tauto. auto.
Qed.
End ValidationTheorems.

(** C4, counterexample.  On a handler with three retries and a network
    that always answers 500, [request("", "get")], [request("x",
    "unknown")] and [request("x", "get")] raise exceptions of the same
    class. *)
Lemma request_error_classes_coincide :
  exists e1 e2 e3,
    (request (platform := posix) ascii_lower (always (plain_response 500)) "" "get" ∅
             (fresh default_handler)).1 = Raise e1 /\
    (request (platform := posix) ascii_lower (always (plain_response 500)) "x" "unknown" ∅
             (fresh default_handler)).1 = Raise e2 /\
    (request (platform := posix) ascii_lower (always (plain_response 500)) "x" "get" ∅
             (fresh default_handler)).1 = Raise e3 /\
    e3 = RuntimeError (msg_http 500 "x") /\
    exn_class e1 = exn_class e2 /\
    exn_class e1 = exn_class e3 /\
    exn_class e2 = exn_class e3.
Proof.
  exists (RuntimeError msg_incomplete),
         (RuntimeError (msg_unknown_method "unknown")),
         (RuntimeError (msg_http 500 "x")).
  repeat split; vm_compute; reflexivity.
Qed.

(** ** The throttle inside [request] *)

Section ThrottleInRequest.
Variable str_lower : string -> string.
Variable transport : nat -> bound_method -> string -> gmap string value -> reply.

(** Whatever the network does, the loop leaves the world as some number
    of attempts make it. *)
Lemma request_loop_world m url kw fuel :
  forall res rc (w : world RequestHandler) r w',
    well_formed (delay (self w)) = true ->
    request_loop transport fuel m url kw res rc w = (r, w') ->
    exists n, w' = after_attempts n m url kw w.
Proof.
  induction fuel as [|fuel IH]; intros res rc w r w' Hwf Hrun.
  - exists 0%nat. simpl in *. unfold bind, get_self in Hrun.
    destruct (rc <? retry (self w)), res; inversion Hrun; reflexivity.
  - destruct (Z.ltb_spec rc (retry (self w))) as [Hlt|Hge].
    + rewrite request_loop_attempt in Hrun by assumption.
      destruct (transport _ _ _ _) as [r0|e].
      * destruct (negb _).
        -- apply IH in Hrun as [n ->]; [|apply well_formed_ticked, Hwf].
           exists (S n). reflexivity.
        -- exists 1%nat. inversion Hrun; reflexivity.
      * exists 1%nat. inversion Hrun; reflexivity.
    + exists 0%nat. apply Z.ltb_ge in Hge.
      simpl in Hrun. unfold bind, get_self in Hrun. rewrite Hge in Hrun.
      destruct res; inversion Hrun; reflexivity.
Qed.

(** C9, as amended.  For a request that passes the argument checks and
    whose throttle does not raise (its step is not 0 and [time.sleep]
    accepts its pause length): when the throttle is a counting
    [Delay], its counter grows by exactly the number of transport calls
    the request issues, whatever their outcome, that is by [k + 1] when
    the request returns after [k] responses other than 200 and by the
    retry limit when all attempts fail; when the throttle is the no-op
    variant (the default), its counter is not changed at all. *)
Theorem request_counts_attempts url method kwargs m
    (w : world RequestHandler) :
  let kw := default_headers (self w) kwargs in
  url <> ""%string -> method <> ""%string ->
  methods (self w) !! str_lower method = Some m ->
  well_formed (delay (self w)) = true ->
  (cls (delay (self w)) = DelayClass ->
     (forall r w',
        request str_lower transport url method kwargs w = (r, w') ->
        counter (delay (self w')) - counter (delay (self w)) =
          Z.of_nat (n_calls (trace w')) - Z.of_nat (n_calls (trace w))) /\
     (forall (k : nat) res,
        Z.of_nat k < retry (self w) ->
        fails_first k transport (n_calls (trace w)) m url kw ->
        transport (n_calls (trace w) + k)%nat m url kw = Responds res ->
        Response.status_code res = 200 ->
        exists w',
          request str_lower transport url method kwargs w = (Return res, w') /\
          counter (delay (self w')) = counter (delay (self w)) + (Z.of_nat k + 1)) /\
     (1 <= retry (self w) ->
      fails_first (Z.to_nat (retry (self w))) transport
                  (n_calls (trace w)) m url kw ->
      exists last w',
        request str_lower transport url method kwargs w =
          (Raise (RuntimeError (msg_http (Response.status_code last) url)), w') /\
        counter (delay (self w')) = counter (delay (self w)) + retry (self w))) /\
  (cls (delay (self w)) = FalseDelayClass ->
     forall r w',
       request str_lower transport url method kwargs w = (r, w') ->
       counter (delay (self w')) = counter (delay (self w))).
Proof.
  intros kw Hurl Hmethod Hm Hwf. split.
  - intros Hcls. split; [|split].
    + intros r w' Hrun.
      rewrite (request_valid _ _ _ _ _ m) in Hrun by assumption.
      apply request_loop_world in Hrun as [n ->]; [|assumption].
      rewrite counter_after_attempts, n_calls_after_attempts by assumption.
      lia.
    + intros k res Hk Hfail Hres Hst.
      exists (after_attempts (S k) m url kw w).
      rewrite (request_after_failures str_lower transport url method kwargs m k)
        by assumption.
      fold kw. rewrite Hres, Hst. simpl negb. cbv iota.
      split; [reflexivity|].
      rewrite counter_after_attempts by assumption. lia.
    + intros HR Hfail.
      destruct (request_all_fail str_lower transport url method kwargs m w)
        as (last & _ & _ & Hreq); try assumption.
      exists last, (after_attempts (Z.to_nat (retry (self w))) m url kw w).
      split; [exact Hreq|].
      rewrite counter_after_attempts by assumption. lia.
  - intros Hcls r w' Hrun.
    rewrite (request_valid _ _ _ _ _ m) in Hrun by assumption.
    apply request_loop_world in Hrun as [n ->]; [|assumption].
    rewrite delay_after_attempts_noop by assumption. reflexivity.
Qed.
End ThrottleInRequest.

(** C9, counterexample.  On [RequestHandler()], whose throttle is the
    no-op variant, a request answered 200 at once issues one transport
    call and leaves the counter of the throttle at 0. *)
Lemma request_default_throttle_counts_nothing :
  exists w',
    request (platform := posix) ascii_lower (always (plain_response 200)) "http://x" "get" ∅
            (fresh default_handler) = (Return (plain_response 200), w') /\
    n_calls (trace w') = 1%nat /\
    counter (delay (self (fresh default_handler))) = 0 /\
    counter (delay (self w')) = 0 /\
    counter (delay (self w')) <>
      counter (delay (self (fresh default_handler))) + 1.
Proof.
  eexists. split; [vm_compute; reflexivity|].
  repeat split; vm_compute; congruence.
Qed.

(** ** Counting activations *)

Lemma set_counter_same (d : Delay) : set_counter (counter d) d = d.
Proof. destruct d; reflexivity. Qed.

(** Activations that stay strictly between two multiples of the step
    only count. *)
Lemma activations_quiet (n : nat) :
  forall (d : Delay) (tr : list event),
    step d <> 0 ->
    sleep_error (sleep d) = None ->
    (forall i, counter d < i <= counter d + Z.of_nat n -> i mod step d <> 0) ->
    activations n (World d tr) =
      (Return tt, World (set_counter (counter d + Z.of_nat n) d) tr).
Proof.
  induction n as [|n IH]; intros d tr Hstep Hsleep Hquiet.
  - simpl. unfold ret. rewrite Z.add_0_r, set_counter_same. reflexivity.
  - simpl activations. unfold bind.
    rewrite Delay_action_run by assumption.
    assert (H1 : ((counter d + 1) mod step d =? 0) = false).
    { apply Z.eqb_neq, Hquiet. lia. }
    rewrite H1, app_nil_r.
    rewrite IH; simpl; try assumption.
    + f_equal. f_equal. unfold set_counter; simpl. f_equal. lia.
    + intros i Hi. apply Hquiet. lia.
Qed.

Lemma activations_then (n : nat) :
  forall w : world Delay,
    activations (S n) w = (activations n ;;; Delay_action) w.
Proof.
  induction n as [|n IH]; intros w.
  - simpl. unfold bind, ret. destruct (Delay_action w) as [[u| |] w']; try reflexivity.
    destruct u; reflexivity.
  - change (activations (S (S n)) w)
      with ((Delay_action ;;; activations (S n)) w).
    unfold bind at 1. destruct (Delay_action w) as [[u| |] w'] eqn:E.
    + rewrite IH. simpl. unfold bind. rewrite E. reflexivity.
    + simpl. unfold bind. rewrite E. reflexivity.
    + simpl. unfold bind. rewrite E. reflexivity.
Qed.

(** C5.  For a step [N >= 1] (and a pause length [time.sleep] accepts):
    every activation returns and increments the counter by exactly 1; it
    takes one pause of the configured length if the new counter value is
    a multiple of [N] and none otherwise; so, from a counter of 0, the
    first [N - 1] activations take no pause and [N] activations take
    exactly one, on the [N]-th. *)
Theorem Delay_action_pauses_every_step (N : Z) (secs : Q) :
  1 <= N ->
  sleep_error secs = None ->
  (forall (d : Delay) (tr : list event),
     step d = N -> sleep d = secs ->
     exists w',
       Delay_action (World d tr) = (Return tt, w') /\
       counter (self w') = counter d + 1 /\
       ((N | counter d + 1) -> trace w' = tr ++ [Sleep secs]) /\
       (~ (N | counter d + 1) -> trace w' = tr)) /\
  (forall (c : delay_class) (tr : list event) (j : nat),
     Z.of_nat j < N ->
     exists w',
       activations j (World (Delay_init c N secs) tr) = (Return tt, w') /\
       counter (self w') = Z.of_nat j /\
       trace w' = tr) /\
  (forall (c : delay_class) (tr : list event),
     exists w',
       activations (Z.to_nat N) (World (Delay_init c N secs) tr) =
         (Return tt, w') /\
       counter (self w') = N /\
       trace w' = tr ++ [Sleep secs]).
Proof.
  intros HN Hsecs.
  assert (Hquiet : forall (c : delay_class) (tr : list event) (j : nat),
    Z.of_nat j < N ->
    activations j (World (Delay_init c N secs) tr) =
      (Return tt, World (set_counter (Z.of_nat j) (Delay_init c N secs)) tr)).
  { intros c tr j Hj.
    rewrite activations_quiet; simpl; [reflexivity|lia|assumption|].
    intros i Hi. rewrite Z.mod_small; lia. }
  split; [|split].
  - intros d tr Hstep Hsleep. subst N secs.
    rewrite Delay_action_run by (assumption || lia).
    eexists. split; [reflexivity|]. simpl. split; [reflexivity|].
    split.
    + intros Hdiv. apply Z.mod_divide in Hdiv; [|lia].
      rewrite Hdiv. reflexivity.
    + intros Hndiv.
      destruct (Z.eqb_spec ((counter d + 1) mod step d) 0) as [E|E].
      * exfalso. apply Hndiv, Z.mod_divide; [lia|exact E].
      * apply app_nil_r.
  - intros c tr j Hj. rewrite Hquiet by assumption.
    eexists. split; [reflexivity|]. split; reflexivity.
  - intros c tr.
    destruct (Z.to_nat N) as [|j] eqn:EN; [lia|].
    rewrite activations_then. unfold bind.
    rewrite Hquiet by lia.
    rewrite Delay_action_run by (simpl; assumption || lia).
    eexists. split; [reflexivity|]. simpl.
    replace (Z.of_nat j + 1) with N by lia.
    rewrite Z.mod_same by lia. simpl. split; reflexivity.
Qed.

(** ** The constructor *)

(** [RequestHandler()] seen at the types its methods use. *)
Lemma handler_of_default_attrs :
  exists self, default_attrs = Return self /\ handler_of self = Some default_handler.
Proof. eexists. split; vm_compute; reflexivity. Qed.

(** Keywords that name no parameter are extra keywords. *)
Lemma bound_twice_ordinary (kwargs : list (string * value)) :
  (forall kv, kv ∈ kwargs -> kv.1 ∉ parameter_names) ->
  bound_twice kwargs = false.
Proof.
  intros Hord. unfold bound_twice.
  induction kwargs as [|kv kwargs IH]; [reflexivity|].
  simpl. rewrite bool_decide_eq_false_2 by (apply Hord; left).
  apply IH. intros kv' Hin. apply Hord. right. exact Hin.
Qed.

(** Extra keywords with ordinary names are stored one after the other. *)
Lemma setattr_all_ordinary (kwargs : list (string * value)) :
  forall self : instance,
    (forall kv, kv ∈ kwargs -> kv.1 ∉ reserved_names) ->
    setattr_all self kwargs =
      Return (mkInstance (inst_class self)
                (foldl (fun d kv => <[ kv.1 := kv.2 ]> d) (inst_dict self)
                       kwargs)).
Proof.
  induction kwargs as [|kv kwargs IH]; intros self Hord.
  - destruct self; reflexivity.
  - assert (Hkv : kv.1 ∉ reserved_names) by (apply Hord; left).
    simpl. unfold setattr.
    destruct (String.eqb_spec kv.1 "__class__") as [E|_];
      [exfalso; apply Hkv; rewrite E; unfold reserved_names;
       apply list_elem_of_here|].
    destruct (String.eqb_spec kv.1 "__dict__") as [E|_];
      [exfalso; apply Hkv; rewrite E; unfold reserved_names;
       apply list_elem_of_further, list_elem_of_here|].
    destruct (String.eqb_spec kv.1 "__weakref__") as [E|_];
      [exfalso; apply Hkv; rewrite E; unfold reserved_names;
       do 2 apply list_elem_of_further; apply list_elem_of_here|].
    rewrite IH by (intros kv' Hin; apply Hord; right; exact Hin).
    reflexivity.
Qed.

(** Extra keywords that name neither the nested class nor the class or
    the dictionary of the object leave [self._FalseDelay_] as it was. *)
Lemma setattr_all_keeps_factory (kwargs : list (string * value)) :
  forall self self' : instance,
    (forall kv, kv ∈ kwargs ->
       kv.1 ∉ ["_FalseDelay_"; "__class__"; "__dict__"]%string) ->
    setattr_all self kwargs = Return self' ->
    getattr_FalseDelay self' = getattr_FalseDelay self.
Proof.
  induction kwargs as [|kv kwargs IH]; intros self self' Hord Hrun.
  - simpl in Hrun. congruence.
  - assert (Hkv : kv.1 ∉ ["_FalseDelay_"; "__class__"; "__dict__"]%string)
      by (apply Hord; left).
    simpl in Hrun. unfold setattr in Hrun.
    destruct (String.eqb_spec kv.1 "__class__") as [E|_];
      [exfalso; apply Hkv; rewrite E;
       apply list_elem_of_further, list_elem_of_here|].
    destruct (String.eqb_spec kv.1 "__dict__") as [E|_];
      [exfalso; apply Hkv; rewrite E;
       do 2 apply list_elem_of_further; apply list_elem_of_here|].
    destruct (String.eqb kv.1 "__weakref__"); [discriminate|].
    apply IH in Hrun; [|intros kv' Hin; apply Hord; right; exact Hin].
    rewrite Hrun. unfold getattr_FalseDelay, assign. simpl.
    rewrite lookup_insert_ne; [reflexivity|].
    intros E. apply Hkv. rewrite E. apply list_elem_of_here.
Qed.

Lemma getattr_FalseDelay_assign (key : string) (v : value) (self : instance) :
  key <> "_FalseDelay_"%string ->
  getattr_FalseDelay (assign key v self) = getattr_FalseDelay self.
Proof.
  intros Hkey. unfold getattr_FalseDelay, assign. simpl.
  rewrite lookup_insert_ne by assumption. reflexivity.
Qed.

(** The object the constructor returns, in terms of the object the
    [setattr] loop leaves and the throttle it ends up with. *)
Lemma init_returns (session headers encoding retry delay : value)
    (kwargs : list (string * value)) (self : instance) :
  RequestHandler_init session headers encoding retry delay kwargs = Return self ->
  exists self0 d,
    setattr_all (mkInstance RequestHandlerClass ∅) kwargs = Return self0 /\
    (match delay with
     | VNone => exists f, getattr_FalseDelay self0 = Return f /\ call0 f = Return d
     | _ => d = delay
     end) /\
    self =
      assign "delay" d
        (assign "retry" retry
           (assign "encodes"
              (match encoding with
               | VStr e => VTuple [e]
               | VList l => VTuple l
               | _ => encoding
               end)
              (assign "headers"
                 (match headers with VNone => VDict HEADERS | _ => headers end)
                 (assign "methods"
                    (VMethods (session_methods
                       (if truthy session then NewSession else RequestsModule)))
                    (assign "session"
                       (VSession
                          (if truthy session then NewSession
                           else RequestsModule))
                       (assign "logger" (VLogger module_name) self0)))))).
Proof.
  unfold RequestHandler_init.
  destruct (bound_twice kwargs); [discriminate|].
  destruct (setattr_all _ kwargs) as [self0| |]; try discriminate.
  destruct delay;
    try (intros H; injection H as <-; eexists _, _;
         split; [reflexivity|]; split; reflexivity).
  rewrite !getattr_FalseDelay_assign by discriminate.
  destruct (getattr_FalseDelay self0) as [f| |] eqn:Ef; try discriminate.
  destruct (call0 f) as [d| |] eqn:Ecall; try discriminate.
  intros H; injection H as <-. exists self0, d.
  split; [reflexivity|]. split; [exists f; split; assumption|reflexivity].
Qed.

(** What the constructor leaves in the attributes it assigns after the
    [setattr] loop. *)
Lemma init_core (session headers encoding retry delay : value)
    (kwargs : list (string * value)) (self : instance) :
  let s := if truthy session then NewSession else RequestsModule in
  RequestHandler_init session headers encoding retry delay kwargs =
    Return self ->
  inst_dict self !! "session" = Some (VSession s) /\
  inst_dict self !! "methods" = Some (VMethods (session_methods s)) /\
  inst_dict self !! "headers" =
    Some (match headers with VNone => VDict HEADERS | _ => headers end) /\
  inst_dict self !! "encodes" =
    Some (match encoding with
          | VStr e => VTuple [e]
          | VList l => VTuple l
          | _ => encoding
          end) /\
  inst_dict self !! "retry" = Some retry /\
  inst_dict self !! "logger" = Some (VLogger module_name) /\
  (delay <> VNone -> inst_dict self !! "delay" = Some delay) /\
  (delay = VNone ->
   (forall kv, kv ∈ kwargs ->
      kv.1 ∉ ["_FalseDelay_"; "__class__"; "__dict__"]%string) ->
   inst_dict self !! "delay" =
     Some (VDelay (Delay_init FalseDelayClass 10 1))).
Proof.
  intros s Hinit.
  apply init_returns in Hinit as (self0 & d & Hloop & Hd & ->).
  fold s. unfold assign; simpl.
  split; [rewrite !lookup_insert_ne by discriminate; apply lookup_insert_eq|].
  split; [rewrite !lookup_insert_ne by discriminate; apply lookup_insert_eq|].
  split; [rewrite !lookup_insert_ne by discriminate; apply lookup_insert_eq|].
  split; [rewrite !lookup_insert_ne by discriminate; apply lookup_insert_eq|].
  split; [rewrite !lookup_insert_ne by discriminate; apply lookup_insert_eq|].
  split; [rewrite !lookup_insert_ne by discriminate; apply lookup_insert_eq|].
  rewrite lookup_insert_eq. split.
  - intros Hgiven. destruct delay; subst; congruence.
  - intros -> Hord. destruct Hd as (f & Hf & Hcall).
    rewrite (setattr_all_keeps_factory _ _ _ Hord Hloop) in Hf.
    injection Hf as <-. injection Hcall as <-. reflexivity.
Qed.

(** The constructor returns when the extra keywords have ordinary
    names. *)
Lemma init_ordinary (session headers encoding retry delay : value)
    (kwargs : list (string * value)) :
  (forall kv, kv ∈ kwargs ->
     (kv.1 ∉ parameter_names) /\ kv.1 <> "_FalseDelay_"%string /\
     kv.1 ∉ reserved_names) ->
  exists self,
    RequestHandler_init session headers encoding retry delay kwargs =
      Return self /\
    inst_class self = RequestHandlerClass /\
    forall key : string,
      key ∉ ["logger"; "session"; "methods"; "headers"; "encodes"; "retry";
             "delay"]%string ->
      inst_dict self !! key =
        foldl (fun d kv => <[ kv.1 := kv.2 ]> d) (∅ : gmap string value)
              kwargs !! key.
Proof.
  set (s := if truthy session then NewSession else RequestsModule).
  intros Hord.
  assert (Hloop := setattr_all_ordinary kwargs (mkInstance RequestHandlerClass ∅)
                     (fun kv Hin => proj2 (proj2 (Hord kv Hin)))).
  simpl in Hloop.
  assert (Hfactory :
    getattr_FalseDelay
      (mkInstance RequestHandlerClass
         (foldl (fun d kv => <[ kv.1 := kv.2 ]> d) (∅ : gmap string value) kwargs)) =
    Return (VClass FalseDelayClass)).
  { rewrite (setattr_all_keeps_factory kwargs
               (mkInstance RequestHandlerClass ∅) _); [reflexivity| |exact Hloop].
    intros kv Hin. destruct (Hord kv Hin) as (_ & Hname & Hres).
    intros H. apply elem_of_cons in H as [H|H]; [contradiction|].
    apply Hres. unfold reserved_names.
    apply elem_of_cons in H as [->|H]; [apply list_elem_of_here|].
    apply elem_of_cons in H as [->|H];
      [apply list_elem_of_further, list_elem_of_here|].
    apply elem_of_nil in H. destruct H. }
  unfold RequestHandler_init.
  rewrite bound_twice_ordinary by (intros kv Hin; apply (Hord kv Hin)).
  rewrite Hloop.
  assert (Hother : forall (d : value) (key : string),
    key ∉ ["logger"; "session"; "methods"; "headers"; "encodes"; "retry";
           "delay"]%string ->
    inst_dict
      (assign "delay" d
         (assign "retry" retry
            (assign "encodes"
               (match encoding with
                | VStr e => VTuple [e]
                | VList l => VTuple l
                | _ => encoding
                end)
               (assign "headers"
                  (match headers with VNone => VDict HEADERS | _ => headers end)
                  (assign "methods" (VMethods (session_methods s))
                     (assign "session" (VSession s)
                        (assign "logger" (VLogger module_name)
                           (mkInstance RequestHandlerClass
                              (foldl (fun d kv => <[ kv.1 := kv.2 ]> d) (∅ : gmap string value) kwargs))))))))) !! key =
    foldl (fun d kv => <[ kv.1 := kv.2 ]> d) (∅ : gmap string value) kwargs !! key).
  { intros d key Hkey. unfold assign; simpl.
    rewrite !lookup_insert_ne; [reflexivity|..];
      intros <-; apply Hkey;
      repeat first [apply list_elem_of_here | apply list_elem_of_further]. }
  fold s.
  destruct delay;
    try (eexists; split; [reflexivity|]; split; [reflexivity|];
         apply Hother).
  rewrite !getattr_FalseDelay_assign by discriminate.
  rewrite Hfactory. simpl.
  eexists. split; [reflexivity|]. split; [reflexivity|]. apply Hother.
Qed.



(** ** The download loop *)

Lemma total_length_non_empty (l : list bytes) :
  total_length (non_empty l) = total_length l.
Proof.
  induction l as [|c l IH]; [reflexivity|].
  simpl. destruct c; simpl; rewrite IH; reflexivity.
Qed.

Lemma chuck_events_cons (c : bytes) (l : list bytes) :
  chuck_events (c :: l) =
    (Next c :: if negb (Nat.eqb (length c) 0) then [Write c] else [])
    ++ chuck_events l.
Proof. reflexivity. Qed.

Lemma writes_chuck_events (l : list bytes) :
  writes (chuck_events l) = non_empty l.
Proof.
  induction l as [|c l IH]; [reflexivity|].
  rewrite chuck_events_cons. unfold writes in *. rewrite omap_app, IH.
  destruct c; reflexivity.
Qed.

Lemma nexts_chuck_events (l : list bytes) : nexts (chuck_events l) = l.
Proof.
  induction l as [|c l IH]; [reflexivity|].
  rewrite chuck_events_cons. unfold nexts in *. rewrite omap_app, IH.
  destruct c; reflexivity.
Qed.

Lemma download_loop_run {O} (content_length : Z) (chucks : list bytes) :
  forall (download_length : Z) (w : world O),
    download_loop content_length chucks download_length w =
      (Return tt,
       World (self w)
             (trace w ++
              chuck_events
                (take (consumed content_length chucks download_length) chucks))).
Proof.
  induction chucks as [|c cs IH]; intros dl w.
  - simpl. unfold ret. rewrite app_nil_r. destruct w; reflexivity.
  - simpl. unfold bind at 1. unfold emit at 1. unfold bind at 1.
    destruct (negb (length c =? 0)%nat) eqn:Hc; simpl.
    + destruct (dl + Z.of_nat (length c) >=? content_length).
      * unfold ret. change (take 1 (c :: cs)) with [c].
        rewrite chuck_events_cons, Hc. simpl.
        rewrite <- app_assoc. reflexivity.
      * rewrite IH. rewrite firstn_cons, chuck_events_cons, Hc. simpl.
        rewrite <- !app_assoc. reflexivity.
    + destruct (dl + Z.of_nat (length c) >=? content_length).
      * unfold ret. change (take 1 (c :: cs)) with [c].
        rewrite chuck_events_cons, Hc. reflexivity.
      * rewrite IH. rewrite firstn_cons, chuck_events_cons, Hc. simpl.
        rewrite <- !app_assoc. reflexivity.
Qed.

Lemma consumed_bounds (content_length : Z) (chucks : list bytes) :
  forall download_length : Z,
    let n := consumed content_length chucks download_length in
    (n <= length chucks)%nat /\
    (n = length chucks \/
     content_length <= download_length + total_length (take n chucks)) /\
    (forall j : nat, (0 < j < n)%nat ->
       download_length + total_length (take j chucks) < content_length) /\
    (chucks <> [] -> (0 < n)%nat).
Proof.
  induction chucks as [|c cs IH]; intros dl; simpl.
  - repeat split; try lia. congruence.
  - destruct (Z.geb_spec (dl + Z.of_nat (length c)) content_length) as [Hge|Hlt].
    + simpl. repeat split; lia.
    + destruct (IH (dl + Z.of_nat (length c))) as (Hlen & Hstop & Hbefore & _).
      simpl. repeat split; try lia.
      intros [|j] Hj; [lia|]. simpl.
      destruct j as [|j]; [rewrite take_0; simpl; lia|].
      specialize (Hbefore (S j) ltac:(lia)). lia.
Qed.

Lemma consumed_overshoot (content_length : Z) (chucks : list bytes) :
  forall (download_length : Z) (c : bytes),
    download_length <= content_length ->
    last (take (consumed content_length chucks download_length) chucks) = Some c ->
    download_length +
      total_length (take (consumed content_length chucks download_length) chucks)
    <= content_length + Z.of_nat (length c).
Proof.
  induction chucks as [|c0 cs IH]; intros dl c Hdl Hlast; simpl in *.
  - discriminate.
  - destruct (Z.geb_spec (dl + Z.of_nat (length c0)) content_length) as [Hge|Hlt].
    + simpl in *. injection Hlast as <-. lia.
    + simpl in *.
      destruct (take (consumed content_length cs (dl + Z.of_nat (length c0))) cs)
        as [|c1 l] eqn:Etake.
      * simpl in *. injection Hlast as <-. lia.
      * rewrite last_cons in Hlast. rewrite <- Etake in *.
        destruct (last (take _ cs)) as [c'|] eqn:El.
        -- injection Hlast as <-.
           specialize (IH (dl + Z.of_nat (length c0)) c' ltac:(lia) El). lia.
        -- rewrite Etake in El. apply last_None in El. discriminate.
Qed.

(** ** What [request] leaves in the trace *)

Lemma no_file_io_app (evs1 evs2 : list event) :
  no_file_io evs1 -> no_file_io evs2 -> no_file_io (evs1 ++ evs2).
Proof.
  unfold no_file_io, writes, nexts. intros [H1 H2] [H3 H4].
  rewrite !omap_app, H1, H2, H3, H4. split; reflexivity.
Qed.

Lemma action_no_file_io (w : world Delay) r w' :
  action w = (r, w') ->
  exists evs, trace w' = trace w ++ evs /\ no_file_io evs.
Proof.
  unfold action, Delay_action, FalseDelay_action, bind, get_self, set_self,
    py_mod, time_sleep, ret, raise, emit. simpl. intros H.
  destruct (cls (self w)); simpl in H.
  - destruct (step (self w) =? 0); simpl in H.
    + inversion H; subst; simpl. exists []. rewrite app_nil_r. repeat split.
    + destruct (_ mod _ =? 0); [destruct (sleep_error _)|];
        inversion H; subst; simpl.
      * exists []. rewrite app_nil_r. repeat split.
      * eexists [_]. repeat split.
      * exists []. rewrite app_nil_r. repeat split.
  - inversion H; subst. exists []. rewrite app_nil_r. repeat split.
Qed.

Lemma action_terminates (w : world Delay) r w' :
  action w = (r, w') -> r <> OutOfFuel.
Proof.
  unfold action, Delay_action, FalseDelay_action, bind, get_self, set_self,
    py_mod, time_sleep, ret, raise, emit. simpl. intros H.
  destruct (cls (self w)); simpl in H; [|inversion H; discriminate].
  destruct (step (self w) =? 0); simpl in H; [inversion H; discriminate|].
  destruct (_ mod _ =? 0); [destruct (sleep_error _)|];
    inversion H; discriminate.
Qed.

Section RequestTrace.
Variable str_lower : string -> string.
Variable transport : nat -> bound_method -> string -> gmap string value -> reply.

(** The loop does not run out of fuel when given as many units as there
    are attempts left. *)
Lemma request_loop_enough_fuel m url kw fuel :
  forall res rc (w : world RequestHandler) r w',
    retry (self w) - rc <= Z.of_nat fuel ->
    request_loop transport fuel m url kw res rc w = (r, w') ->
    r <> OutOfFuel.
Proof.
  induction fuel as [|fuel IH]; intros res rc w r w' Hfuel Hrun;
    simpl in Hrun; unfold bind at 1, get_self at 1 in Hrun;
    destruct (Z.ltb_spec rc (retry (self w))) as [Hlt|Hge];
    try (destruct res; inversion Hrun; discriminate).
  - lia.
  - unfold bind at 1, on_field in Hrun. simpl in Hrun.
    destruct (action (World (delay (self w)) (trace w))) as [ra wa] eqn:Ea.
    apply action_terminates in Ea.
    destruct ra as [[]|e|]; simpl in Hrun;
      [|inversion Hrun; discriminate|congruence].
    unfold bind at 1, call_method in Hrun. simpl in Hrun.
    destruct (transport _ _ _ _) as [r0|e]; [|inversion Hrun; discriminate].
    destruct (negb _); [|inversion Hrun; discriminate].
    apply IH in Hrun; [assumption|]. simpl. lia.
Qed.

(** [request] always returns or raises: its loop is given enough fuel. *)
Lemma request_terminates url method kwargs (w : world RequestHandler) r w' :
  request str_lower transport url method kwargs w = (r, w') ->
  r <> OutOfFuel.
Proof.
  unfold request.
  destruct (_ || _); [intros H; inversion H; discriminate|].
  unfold bind, get_self.
  destruct (_ !! _); [|intros H; inversion H; discriminate].
  apply request_loop_enough_fuel. unfold request_loop_fuel. lia.
Qed.

Lemma request_loop_no_file_io m url kw fuel :
  forall res rc (w : world RequestHandler) r w',
    request_loop transport fuel m url kw res rc w = (r, w') ->
    exists evs, trace w' = trace w ++ evs /\ no_file_io evs.
Proof.
  assert (Hnil : forall w : world RequestHandler,
            exists evs, trace w = trace w ++ evs /\ no_file_io evs).
  { intros w. exists []. rewrite app_nil_r. repeat split. }
  induction fuel as [|fuel IH]; intros res rc w r w' Hrun; simpl in Hrun;
    unfold bind at 1, get_self at 1 in Hrun.
  - destruct (rc <? retry (self w)), res; inversion Hrun; subst; apply Hnil.
  - destruct (rc <? retry (self w));
      [|destruct res; inversion Hrun; subst; apply Hnil].
    unfold bind at 1, on_field in Hrun. simpl in Hrun.
    destruct (action (World (delay (self w)) (trace w))) as [ra wa] eqn:Ea.
    apply action_no_file_io in Ea as (evs1 & Htr1 & Hq1). simpl in Htr1.
    destruct ra as [[]|e|]; simpl in Hrun;
      [|inversion Hrun; subst; simpl; eauto..].
    unfold bind at 1, call_method in Hrun. simpl in Hrun.
    assert (Hq2 : no_file_io (evs1 ++ [Call m url kw])).
    { apply no_file_io_app; [assumption|]. split; reflexivity. }
    destruct (transport _ _ _ _) as [r0|e].
    + destruct (negb _).
      * apply IH in Hrun as (evs3 & Htr3 & Hq3). simpl in Htr3.
        exists ((evs1 ++ [Call m url kw]) ++ evs3). split.
        -- rewrite Htr3, Htr1, <- !app_assoc. reflexivity.
        -- apply no_file_io_app; assumption.
      * inversion Hrun; subst; simpl.
        exists (evs1 ++ [Call m url kw]). split; [|assumption].
        rewrite Htr1, <- app_assoc. reflexivity.
    + inversion Hrun; subst; simpl.
      exists (evs1 ++ [Call m url kw]). split; [|assumption].
      rewrite Htr1, <- app_assoc. reflexivity.
Qed.

(** [request] neither writes to a file nor reads a stream. *)
Lemma request_no_file_io url method kwargs (w : world RequestHandler) r w' :
  request str_lower transport url method kwargs w = (r, w') ->
  exists evs, trace w' = trace w ++ evs /\ no_file_io evs.
Proof.
  unfold request.
  destruct (_ || _).
  - intros H; inversion H; subst. exists []. rewrite app_nil_r. repeat split.
  - unfold bind, get_self. destruct (_ !! _).
    + apply request_loop_no_file_io.
    + intros H; inversion H; subst. exists []. rewrite app_nil_r. repeat split.
Qed.
End RequestTrace.

(** ** [download] *)

Section DownloadTheorems.
Variable str_lower : string -> string.
Variable transport : nat -> bound_method -> string -> gmap string value -> reply.
Variable int : string -> option Z.
Variable os_path_split : string -> string * string.

(** When the file cannot be opened, [download] raises the error of
    [open] after the directory has been made: no request is sent. *)
Lemma download_open_fails url save_path method kwargs e
    (w : world RequestHandler) :
  open_error save_path = Some e ->
  download str_lower transport int os_path_split url save_path method
           kwargs w =
    (Raise e, World (self w) (trace w ++ [MakeDirs (os_path_split save_path).1])).
Proof.
  intros Hopen.
  unfold download, make_if_doesnt_exist, open_wb.
  unfold bind at 1, emit at 1. rewrite Hopen. reflexivity.
Qed.

(** Once the file is open and [request] has returned a response,
    [download] saves it and closes the response and the file. *)
Lemma download_after_request url save_path method kwargs res
    (w w1 : world RequestHandler) :
  open_error save_path = None ->
  kwargs !! "stream" = None ->
  request str_lower transport url method (<[ "stream" := VBool true ]> kwargs)
          (opened os_path_split save_path w) = (Return res, w1) ->
  download str_lower transport int os_path_split url save_path method
           kwargs w =
    (let '(r, w2) := save_response str_lower int res w1 in
     (r, World (self w2) (trace w2 ++ [CloseResponse; CloseFile]))).
Proof.
  intros Hopen Hstream Hreq.
  unfold download, make_if_doesnt_exist, open_wb. rewrite Hopen.
  unfold bind at 1, emit at 1. unfold bind at 1, emit at 1. simpl.
  unfold finally at 1. unfold bind at 1. rewrite Hstream.
  unfold opened in Hreq. rewrite <- app_assoc. simpl app.
  rewrite Hreq. unfold finally at 1.
  destruct (save_response str_lower int res w1) as [r w2].
  unfold emit. simpl. rewrite <- app_assoc. reflexivity.
Qed.

(** The file and the stream are untouched while [request] runs. *)
Lemma request_keeps_file_io url save_path method kwargs r
    (w w1 : world RequestHandler) :
  request str_lower transport url method kwargs (opened os_path_split save_path w) = (r, w1) ->
  writes (trace w1) = writes (trace w) /\ nexts (trace w1) = nexts (trace w).
Proof.
  intros Hreq. apply request_no_file_io in Hreq as (evs & -> & Hw & Hn).
  unfold opened, writes, nexts in *. simpl.
  rewrite !omap_app, Hw, Hn. simpl. rewrite !app_nil_r. split; reflexivity.
Qed.

(** C7.  When the response [request] returns to [download] has no
    [Content-Length] header, [download] returns after writing the whole
    buffered body ([res.content]) to the file in one write, the only
    write of the call, and without pulling a single chunk from the
    stream; it then closes the response and the file.  (The request is
    sent once [open] has returned the file; when [open] raises,
    [download] raises that error and nothing is sent or written.) *)
Theorem download_without_content_length url save_path method kwargs res
    (w w1 : world RequestHandler) :
  kwargs !! "stream" = None ->
  request str_lower transport url method (<[ "stream" := VBool true ]> kwargs)
          (opened os_path_split save_path w) = (Return res, w1) ->
  headers_contains str_lower (Response.headers res) "Content-Length" = false ->
  match open_error save_path with
  | Some e =>
      download str_lower transport int os_path_split url save_path method
               kwargs w =
        (Raise e,
         World (self w) (trace w ++ [MakeDirs (os_path_split save_path).1]))
  | None =>
      exists w',
        download str_lower transport int os_path_split url save_path method
               kwargs w = (Return tt, w') /\
        trace w' =
          trace w1 ++ [Write (Response.content res); CloseResponse; CloseFile] /\
        writes (trace w') = writes (trace w) ++ [Response.content res] /\
        nexts (trace w') = nexts (trace w)
  end.
Proof.
  intros Hstream Hreq Hno.
  destruct (open_error save_path) as [e|] eqn:Hopen;
    [apply download_open_fails; assumption|].
  rewrite (download_after_request _ _ _ _ res w w1) by assumption.
  unfold save_response. rewrite Hno.
  unfold emit. simpl.
  eexists. split; [reflexivity|]. simpl.
  apply request_keeps_file_io in Hreq as [Hw Hn].
  split; [rewrite <- app_assoc; reflexivity|].
  unfold writes, nexts in *. rewrite !omap_app, Hw, Hn. simpl.
  rewrite !app_nil_r. split; reflexivity.
Qed.
(** C3.  When the response [request] returns to [download] declares a
    [Content-Length] that reads as the integer [L], [download] returns
    after reading some first [n] chunks of the stream, in order: every
    non-empty chunk read is written to the file and nothing else is;
    reading stops at the end of the stream or after the first chunk
    with which the total length of the chunks read (empty ones
    included) is [L] or more, and not before; so, for [L >= 0], the
    bytes written exceed [L] by at most the length of the last chunk
    read.  In particular with [L = 100] and a stream of three chunks of
    40 bytes all three chunks are written, 120 bytes in all.  (The
    request is sent once [open] has returned the file; when [open]
    raises, [download] raises that error and nothing is sent, read or
    written.) *)
Theorem download_with_content_length url save_path method kwargs res
    (w w1 : world RequestHandler) (item : string * string) (L : Z) :
  let chucks := Response.iter_content res CHUCK_SIZE in
  kwargs !! "stream" = None ->
  request str_lower transport url method (<[ "stream" := VBool true ]> kwargs)
          (opened os_path_split save_path w) = (Return res, w1) ->
  Response.store (Response.headers res) !! str_lower "Content-Length" =
    Some item ->
  int item.2 = Some L ->
  match open_error save_path with
  | Some e =>
      download str_lower transport int os_path_split url save_path method
               kwargs w =
        (Raise e,
         World (self w) (trace w ++ [MakeDirs (os_path_split save_path).1]))
  | None =>
      exists (n : nat) w',
        download str_lower transport int os_path_split url save_path method
                 kwargs w = (Return tt, w') /\
        trace w' =
          trace w1 ++ chuck_events (take n chucks) ++ [CloseResponse; CloseFile] /\
        (n <= length chucks)%nat /\
        nexts (trace w') = nexts (trace w) ++ take n chucks /\
        writes (trace w') = writes (trace w) ++ non_empty (take n chucks) /\
        (n = length chucks \/ L <= total_length (take n chucks)) /\
        (forall j : nat, (0 < j < n)%nat -> total_length (take j chucks) < L) /\
        (chucks <> [] -> (0 < n)%nat) /\
        (0 <= L -> forall c, last (take n chucks) = Some c ->
           total_length (non_empty (take n chucks)) <= L + Z.of_nat (length c)) /\
        (L = 100 ->
         forall c1 c2 c3 : bytes,
           chucks = [c1; c2; c3] ->
           length c1 = 40%nat -> length c2 = 40%nat -> length c3 = 40%nat ->
           writes (trace w') = writes (trace w) ++ [c1; c2; c3] /\
           total_length [c1; c2; c3] = 120)
  end.
Proof.
  intros chucks Hstream Hreq Hitem HL.
  destruct (open_error save_path) as [e|] eqn:Hopen;
    [apply download_open_fails; assumption|].
  rewrite (download_after_request _ _ _ _ res w w1) by assumption.
  unfold save_response, headers_contains, headers_getitem, py_int.
  rewrite Hitem. unfold bind at 1, ret at 1. rewrite HL.
  unfold bind at 1, ret at 1. rewrite download_loop_run. fold chucks.
  set (n := consumed L chucks 0).
  destruct (consumed_bounds L chucks 0) as (Hlen & Hstop & Hbefore & Hpos).
  fold n in Hlen, Hstop, Hbefore, Hpos.
  apply request_keeps_file_io in Hreq as [Hw Hn].
  assert (Hwrites :
    writes (trace w1 ++ chuck_events (take n chucks) ++
            [CloseResponse; CloseFile]) =
    writes (trace w) ++ non_empty (take n chucks)).
  { unfold writes in *. rewrite !omap_app, Hw. fold (writes (chuck_events (take n chucks))).
    rewrite writes_chuck_events. simpl. rewrite app_nil_r. reflexivity. }
  exists n. eexists. split; [reflexivity|]. simpl.
  split; [rewrite <- app_assoc; reflexivity|].
  rewrite <- app_assoc.
  split; [assumption|]. split.
  { unfold nexts in *. rewrite !omap_app, Hn. fold (nexts (chuck_events (take n chucks))).
    rewrite nexts_chuck_events. simpl. rewrite app_nil_r. reflexivity. }
  split; [exact Hwrites|].
  split; [destruct Hstop; [left; assumption|right; lia]|].
  split; [intros j Hj; specialize (Hbefore j Hj); lia|].
  split; [assumption|]. split.
  - intros HL0 c Hlast. rewrite total_length_non_empty.
    pose proof (consumed_overshoot L chucks 0 c HL0 Hlast) as Hover.
    fold n in Hover. lia.
  - intros -> c1 c2 c3 Hch H1 H2 H3.
    rewrite Hwrites. subst n. rewrite Hch. simpl.
    rewrite H1, H2, H3. simpl.
    destruct c1; [discriminate|]. destruct c2; [discriminate|].
    destruct c3; [discriminate|]. split; reflexivity.
Qed.
End DownloadTheorems.


End Properties.

(** ** Worked instances

    The general statements hold on every platform; the instances below
    are run on [posix]. *)

Section Instances.
#[local] Existing Instance posix.

(** Three retries, a network that always answers 500: three calls, then
    the error with status 500 and the URL. *)
Lemma request_exhausts_retries_witness :
  exists w',
    request ascii_lower (always (plain_response 500)) "http://x" "GET" ∅
            (fresh throttled_handler) =
      (Raise (RuntimeError "「HTTP异常」状态码：500，请求地址：http://x"), w') /\
    Z.of_nat (n_calls (trace w')) = 0 + 3 /\
    calls (trace w') =
      [] ++ replicate (Z.to_nat 3)
              (Call get_method "http://x" (default_headers throttled_handler ∅)).
Proof.
  destruct (request_exhausts_retries ascii_lower (always (plain_response 500))
              "http://x" "GET" ∅ get_method (fresh throttled_handler))
    as (last & w' & Hreq & Hlast & Hn & Hcalls).
  - discriminate.
  - discriminate.
  - vm_compute. reflexivity.
  - reflexivity.
  - simpl. lia.
  - intros i Hi. exists (plain_response 500). split; [|discriminate].
    unfold always, scripted. destruct i; reflexivity.
  - change (Responds (plain_response 500) = Responds last) in Hlast.
    injection Hlast as <-.
    exists w'. split; [exact Hreq|]. split; [exact Hn|exact Hcalls].
Defined.

(** Two failures and then a 200: the 200 response after three calls. *)
Lemma request_returns_first_200_witness :
  exists w',
    request ascii_lower recovering "http://x" "get" ∅ (fresh throttled_handler) =
      (Return (plain_response 200), w') /\
    n_calls (trace w') = (0 + (2 + 1))%nat /\
    calls (trace w') =
      [] ++ replicate (2 + 1)
              (Call get_method "http://x" (default_headers throttled_handler ∅)).
Proof.
  apply (request_returns_first_200 ascii_lower recovering "http://x" "get" ∅
           get_method 2 (plain_response 200) (fresh throttled_handler)).
  - discriminate.
  - discriminate.
  - vm_compute. reflexivity.
  - reflexivity.
  - simpl. lia.
  - intros i Hi. destruct i as [|[|i]]; [| |lia].
    + exists (plain_response 500). split; [reflexivity|discriminate].
    + exists (plain_response 503). split; [reflexivity|discriminate].
  - reflexivity.
  - reflexivity.
Defined.

(** One failure and then a refused connection: that exception, after two
    calls out of three. *)
Lemma request_propagates_transport_exception_witness :
  exists w',
    request ascii_lower breaking "http://x" "get" ∅ (fresh throttled_handler) =
      (Raise refused, w') /\
    n_calls (trace w') = (0 + (1 + 1))%nat /\
    calls (trace w') =
      [] ++ replicate (1 + 1)
              (Call get_method "http://x" (default_headers throttled_handler ∅)).
Proof.
  apply (request_propagates_transport_exception ascii_lower breaking
           "http://x" "get" ∅ get_method 1 refused (fresh throttled_handler)).
  - discriminate.
  - discriminate.
  - vm_compute. reflexivity.
  - reflexivity.
  - simpl. lia.
  - intros i Hi. destruct i as [|i]; [|lia].
    exists (plain_response 500). split; [reflexivity|discriminate].
  - reflexivity.
Defined.

(** An empty URL is refused at once. *)
Lemma request_rejects_bad_arguments_witness :
  request ascii_lower (always (plain_response 200)) "" "get" ∅
          (fresh default_handler) =
    (Raise (RuntimeError msg_incomplete), fresh default_handler) /\
  request ascii_lower (always (plain_response 200)) "x" "Unknown" ∅
          (fresh default_handler) =
    (Raise (RuntimeError (msg_unknown_method "unknown")), fresh default_handler).
Proof.
  split.
  - apply (request_rejects_bad_arguments ascii_lower
             (always (plain_response 200)) "" "get" ∅ (fresh default_handler)).
    left. reflexivity.
  - apply (request_rejects_bad_arguments ascii_lower
             (always (plain_response 200)) "x" "Unknown" ∅
             (fresh default_handler)).
    + discriminate.
    + discriminate.
    + exists NewSession. reflexivity.
    + change (ascii_lower "Unknown") with "unknown"%string.
      unfold verbs. intros H.
      repeat (apply elem_of_cons in H as [H|H]; [discriminate|]).
      apply elem_of_nil in H. exact H.
Defined.

(** An unknown method on a throttled handler: the throttle has not moved. *)
Lemma request_invalid_leaves_throttle_witness :
  exists e w',
    request ascii_lower (always (plain_response 200)) "x" "unknown" ∅
            (fresh throttled_handler) = (Raise e, w') /\
    counter (delay (self w')) = counter (delay throttled_handler) /\
    delay (self w') = delay throttled_handler /\
    sleeps (trace w') = [] /\
    trace w' = [].
Proof.
  apply (request_invalid_leaves_throttle ascii_lower
           (always (plain_response 200)) "x" "unknown" ∅
           (fresh throttled_handler)).
  right. right. vm_compute. reflexivity.
Defined.

(** Two failures and then a 200 on a counting throttle: the counter goes
    from 0 to 3. *)
Lemma request_counts_attempts_witness :
  exists w',
    request ascii_lower recovering "http://x" "get" ∅ (fresh throttled_handler) =
      (Return (plain_response 200), w') /\
    counter (delay (self w')) = 0 + (Z.of_nat 2 + 1).
Proof.
  apply (request_counts_attempts ascii_lower recovering "http://x" "get" ∅
           get_method (fresh throttled_handler)).
  - discriminate.
  - discriminate.
  - vm_compute. reflexivity.
  - reflexivity.
  - reflexivity.
  - simpl. lia.
  - intros i Hi. destruct i as [|[|i]]; [| |lia].
    + exists (plain_response 500). split; [reflexivity|discriminate].
    + exists (plain_response 503). split; [reflexivity|discriminate].
  - reflexivity.
  - reflexivity.
Defined.

(** A step of 3 and a pause of one second: two activations are quiet,
    the third pauses. *)
Lemma Delay_action_pauses_every_step_witness :
  (exists w',
     activations 2 (World (Delay_init DelayClass 3 1) []) = (Return tt, w') /\
     counter (self w') = Z.of_nat 2 /\
     trace w' = []) /\
  (exists w',
     activations (Z.to_nat 3) (World (Delay_init DelayClass 3 1) []) =
       (Return tt, w') /\
     counter (self w') = 3 /\
     trace w' = [] ++ [Sleep 1]).
Proof.
  destruct (Delay_action_pauses_every_step 3 1) as (_ & Hquiet & Hpause).
  - lia.
  - reflexivity.
  - split.
    + apply (Hquiet DelayClass [] 2%nat). simpl. lia.
    + apply (Hpause DelayClass []).
Defined.


(** A declared length of 100 and three chunks of 40 bytes: all three are
    written. *)
Lemma download_with_content_length_witness :
  exists w',
    download ascii_lower (always declared_response) int_of_digits posix_split
             "http://x/f" "/tmp/out/f.bin" "get" ∅ (fresh default_handler) =
      (Return tt, w') /\
    writes (trace w') = three_chucks /\
    total_length (writes (trace w')) = 120.
Proof.
  destruct (download_with_content_length ascii_lower (always declared_response)
              int_of_digits posix_split "http://x/f" "/tmp/out/f.bin" "get" ∅
              declared_response (fresh default_handler)
              (download_world declared_response)
              ("Content-Length", "100")%string 100)
    as (n & w' & Hrun & _ & _ & _ & _ & _ & _ & _ & _ & Hall).
  - reflexivity.
  - vm_compute. reflexivity.
  - vm_compute. reflexivity.
  - reflexivity.
  - destruct (Hall eq_refl _ _ _ eq_refl eq_refl eq_refl eq_refl) as [Hw Ht].
    exists w'. split; [exact Hrun|].
    split; [exact Hw|]. rewrite Hw. exact Ht.
Defined.

(** No declared length: the body goes out in one write. *)
Lemma download_without_content_length_witness :
  exists w',
    download ascii_lower (always undeclared_response) int_of_digits posix_split
             "http://x/f" "/tmp/out/f.bin" "get" ∅ (fresh default_handler) =
      (Return tt, w') /\
    trace w' =
      trace (download_world undeclared_response) ++
      [Write (Response.content undeclared_response); CloseResponse; CloseFile] /\
    writes (trace w') = [] ++ [Response.content undeclared_response] /\
    nexts (trace w') = [].
Proof.
  destruct (download_without_content_length ascii_lower
              (always undeclared_response) int_of_digits posix_split
              "http://x/f" "/tmp/out/f.bin" "get" ∅ undeclared_response
              (fresh default_handler) (download_world undeclared_response))
    as (w' & Hrun & Htrace & Hwrites & Hnexts).
  - reflexivity.
  - vm_compute. reflexivity.
  - vm_compute. reflexivity.
  - exists w'. split; [exact Hrun|]. split; [exact Htrace|].
    split; [exact Hwrites|exact Hnexts].
Defined.

End Instances.

Section FurtherProperties.
Context {platform : Platform}.

(** ** What [request] does whatever the network and the throttle do *)

(** One activation, whatever the throttle: the settings stay, the counter
    moves by at most one, and at most one pause is taken, none when the
    activation raises. *)
Lemma action_general (w : world Delay) r w' :
  action w = (r, w') ->
  cls (self w') = cls (self w) /\
  step (self w') = step (self w) /\
  sleep (self w') = sleep (self w) /\
  counter (self w) <= counter (self w') <= counter (self w) + 1 /\
  exists evs,
    trace w' = trace w ++ evs /\
    (evs = [] \/ (r = Return tt /\ evs = [Sleep (sleep (self w))])).
Proof.
  unfold action, Delay_action, FalseDelay_action, bind, get_self, set_self,
    py_mod, time_sleep, ret, raise, emit. simpl. intros H.
  destruct (cls (self w)) eqn:Hcls; simpl in H.
  - destruct (step (self w) =? 0); simpl in H.
    + inversion H; subst; simpl.
      refine (conj _ (conj _ (conj _ (conj _ _)))); try assumption;
        try reflexivity; try lia.
      exists []. rewrite app_nil_r. auto.
    + destruct (_ mod _ =? 0); [destruct (sleep_error _)|];
        inversion H; subst; simpl;
        (refine (conj _ (conj _ (conj _ (conj _ _)))); try assumption;
         try reflexivity; try lia).
      * exists []. rewrite app_nil_r. auto.
      * eexists. split; [reflexivity|]. right. auto.
      * exists []. rewrite app_nil_r. auto.
  - inversion H; subst.
    refine (conj _ (conj _ (conj _ (conj _ _)))); try assumption;
      try reflexivity; try lia.
    exists []. rewrite app_nil_r. auto.
Qed.

Lemma same_settings_refl (h : RequestHandler) : same_settings h h.
Proof. unfold same_settings. repeat split. Qed.

Section GeneralFacts.
Variable str_lower : string -> string.
Variable transport : nat -> bound_method -> string -> gmap string value -> reply.

(** The loop, whatever happens: the settings stay and the counter does
    not go down; the effects are pauses of the configured length and calls
    of the one callable with the one URL and the same options; there are
    no more calls than attempts left; and the last effect, if any, is a
    call. *)
Lemma request_loop_general m url kw fuel :
  forall res rc (w : world RequestHandler) r w',
    request_loop transport fuel m url kw res rc w = (r, w') ->
    same_settings (self w) (self w') /\
    counter (delay (self w)) <= counter (delay (self w')) /\
    exists evs,
      trace w' = trace w ++ evs /\
      Forall (fun e => e = Sleep (sleep (delay (self w))) \/ e = Call m url kw)
             evs /\
      (n_calls evs <= Z.to_nat (retry (self w) - rc))%nat /\
      (evs = [] \/ exists evs0, evs = evs0 ++ [Call m url kw]).
Proof.
  assert (Hnil : forall (w : world RequestHandler) rc,
    same_settings (self w) (self w) /\
    counter (delay (self w)) <= counter (delay (self w)) /\
    exists evs,
      trace w = trace w ++ evs /\
      Forall (fun e => e = Sleep (sleep (delay (self w))) \/ e = Call m url kw)
             evs /\
      (n_calls evs <= Z.to_nat (retry (self w) - rc))%nat /\
      (evs = [] \/ exists evs0, evs = evs0 ++ [Call m url kw])).
  { intros w rc. split; [apply same_settings_refl|]. split; [lia|].
    exists []. rewrite app_nil_r. split; [reflexivity|].
    split; [constructor|]. split; [unfold n_calls, calls; simpl; lia|].
    left. reflexivity. }
  induction fuel as [|fuel IH]; intros res rc w r w' Hrun; simpl in Hrun;
    unfold bind at 1, get_self at 1 in Hrun;
    destruct (Z.ltb_spec rc (retry (self w))) as [Hlt|Hge];
    try (destruct res; inversion Hrun; subst; apply Hnil).
  unfold bind at 1, on_field in Hrun. simpl in Hrun.
  destruct (action (World (delay (self w)) (trace w))) as [ra wa] eqn:Ea.
  - apply action_general in Ea
      as (Hcls & Hstep & Hsleep & Hcnt & evs1 & Htr1 & Hevs1).
    simpl in Hcls, Hstep, Hsleep, Hcnt, Htr1, Hevs1.
    assert (Hset : same_settings (self w) (set_delay (self wa) (self w))).
    { unfold same_settings. simpl. repeat split; assumption. }
    assert (Hsl : Forall (fun e => e = Sleep (sleep (delay (self w))) \/
                                   e = Call m url kw) evs1).
    { destruct Hevs1 as [->|[_ ->]]; [constructor|].
      constructor; [left; reflexivity|constructor]. }
    assert (Hn1 : n_calls evs1 = 0%nat).
    { destruct Hevs1 as [->|[_ ->]]; reflexivity. }
    destruct ra as [[]|e|]; simpl in Hrun.
    + unfold bind at 1, call_method in Hrun. simpl in Hrun.
      assert (Hsl2 : Forall (fun e => e = Sleep (sleep (delay (self w))) \/
                                      e = Call m url kw)
                            (evs1 ++ [Call m url kw])).
      { apply Forall_app. split; [assumption|].
        constructor; [right; reflexivity|constructor]. }
      assert (Hn2 : (n_calls (evs1 ++ [Call m url kw]) <=
                     Z.to_nat (retry (self w) - rc))%nat).
      { rewrite n_calls_app, Hn1. unfold n_calls at 1; simpl. lia. }
      assert (Hdone :
        same_settings (self w) (set_delay (self wa) (self w)) /\
        counter (delay (self w)) <= counter (self wa) /\
        exists evs,
          trace wa ++ [Call m url kw] = trace w ++ evs /\
          Forall (fun e => e = Sleep (sleep (delay (self w))) \/
                           e = Call m url kw) evs /\
          (n_calls evs <= Z.to_nat (retry (self w) - rc))%nat /\
          (evs = [] \/ exists evs0, evs = evs0 ++ [Call m url kw])).
      { split; [assumption|]. split; [lia|].
        exists (evs1 ++ [Call m url kw]).
        rewrite Htr1, <- app_assoc. split; [reflexivity|].
        split; [assumption|]. split; [assumption|].
        right. exists evs1. reflexivity. }
      destruct (transport _ _ _ _) as [r0|e];
        [|inversion Hrun; subst; simpl; exact Hdone].
      destruct (negb _); [|inversion Hrun; subst; simpl; exact Hdone].
      apply IH in Hrun as (Hset3 & Hcnt3 & evs3 & Htr3 & Hsl3 & Hn3 & Hlast3).
      simpl in Hset3, Hcnt3, Htr3, Hsl3, Hn3.
      split.
      { unfold same_settings in *. simpl in *.
        destruct Hset3 as (? & ? & ? & ? & ? & ? & ? & ? & ?).
        repeat split; congruence. }
      split; [lia|].
      exists ((evs1 ++ [Call m url kw]) ++ evs3). split.
      { rewrite Htr3, Htr1, <- !app_assoc. reflexivity. }
      split.
      { apply Forall_app. split; [assumption|].
        rewrite Hsleep in Hsl3. exact Hsl3. }
      split.
      { rewrite n_calls_app, n_calls_app, Hn1. unfold n_calls at 1; simpl.
        unfold n_calls in Hn3. unfold n_calls. lia. }
      right. destruct Hlast3 as [->|[evs0 ->]].
      * exists evs1. rewrite app_nil_r. reflexivity.
      * exists ((evs1 ++ [Call m url kw]) ++ evs0).
        rewrite <- !app_assoc. reflexivity.
    + inversion Hrun; subst; simpl.
      split; [assumption|]. split; [lia|].
      destruct Hevs1 as [->|[Hbad _]]; [|discriminate].
      exists []. rewrite Htr1. split; [reflexivity|].
      split; [constructor|]. split; [unfold n_calls, calls; simpl; lia|].
      left. reflexivity.
    + inversion Hrun; subst; simpl.
      split; [assumption|]. split; [lia|].
      destruct Hevs1 as [->|[Hbad _]]; [|discriminate].
      exists []. rewrite Htr1. split; [reflexivity|].
      split; [constructor|]. split; [unfold n_calls, calls; simpl; lia|].
      left. reflexivity.
Qed.
End GeneralFacts.

Lemma default_headers_spec (h : RequestHandler) (kwargs : gmap string value) :
  default_headers h kwargs !! "headers" =
    Some (default (headers h) (kwargs !! "headers")) /\
  (forall key : string, key <> "headers"%string ->
     default_headers h kwargs !! key = kwargs !! key).
Proof.
  unfold default_headers. destruct (kwargs !! "headers") as [v|] eqn:E; simpl.
  - split; [exact E|]. reflexivity.
  - split; [apply lookup_insert_eq|].
    intros key Hkey. apply lookup_insert_ne. congruence.
Qed.

Section RequestGeneral.
Variable str_lower : string -> string.
Variable transport : nat -> bound_method -> string -> gmap string value -> reply.

(** [request], whatever happens. *)
Lemma request_general url method kwargs (w : world RequestHandler) r w' :
  request str_lower transport url method kwargs w = (r, w') ->
  same_settings (self w) (self w') /\
  counter (delay (self w)) <= counter (delay (self w')) /\
  exists evs,
    trace w' = trace w ++ evs /\
    Forall (fun e =>
              e = Sleep (sleep (delay (self w))) \/
              exists m, methods (self w) !! str_lower method = Some m /\
                        e = Call m url (default_headers (self w) kwargs))
           evs /\
    (n_calls evs <= Z.to_nat (retry (self w)))%nat /\
    (evs = [] \/
     exists evs0 m, evs = evs0 ++ [Call m url (default_headers (self w) kwargs)]).
Proof.
  assert (Hnil :
    same_settings (self w) (self w) /\
    counter (delay (self w)) <= counter (delay (self w)) /\
    exists evs,
      trace w = trace w ++ evs /\
      Forall (fun e =>
                e = Sleep (sleep (delay (self w))) \/
                exists m, methods (self w) !! str_lower method = Some m /\
                          e = Call m url (default_headers (self w) kwargs))
             evs /\
      (n_calls evs <= Z.to_nat (retry (self w)))%nat /\
      (evs = [] \/
       exists evs0 m,
         evs = evs0 ++ [Call m url (default_headers (self w) kwargs)])).
  { split; [apply same_settings_refl|]. split; [lia|].
    exists []. rewrite app_nil_r. split; [reflexivity|].
    split; [constructor|]. split; [unfold n_calls, calls; simpl; lia|].
    left. reflexivity. }
  unfold request.
  destruct (_ || _); [intros H; inversion H; subst; exact Hnil|].
  unfold bind, get_self.
  destruct (methods (self w) !! str_lower method) as [m|] eqn:Hm;
    [|intros H; inversion H; subst; exact Hnil].
  intros Hrun.
  apply request_loop_general in Hrun
    as (Hset & Hcnt & evs & Htr & Hall & Hn & Hlast).
  split; [assumption|]. split; [assumption|].
  exists evs. split; [assumption|]. split.
  - eapply Forall_impl; [exact Hall|].
    intros e [He|He]; [left; assumption|right; exists m; auto].
  - split; [rewrite Z.sub_0_r in Hn; exact Hn|].
    destruct Hlast as [->|[evs0 ->]]; [left; reflexivity|].
    right. exists evs0, m. reflexivity.
Qed.

(** With a throttle that does not raise, the world after [request] is
    the world after some number of attempts. *)
Lemma request_world url method kwargs (w : world RequestHandler) r w' :
  well_formed (delay (self w)) = true ->
  request str_lower transport url method kwargs w = (r, w') ->
  exists n m,
    w' = after_attempts n m url (default_headers (self w) kwargs) w.
Proof.
  intros Hwf. unfold request.
  destruct (_ || _);
    [intros H; inversion H; subst; exists 0%nat, get_method; reflexivity|].
  unfold bind, get_self.
  destruct (methods (self w) !! str_lower method) as [m|] eqn:Hm;
    [|intros H; inversion H; subst; exists 0%nat, get_method; reflexivity].
  intros Hrun. apply request_loop_world in Hrun as [n ->]; [|assumption].
  exists n, m. reflexivity.
Qed.
End RequestGeneral.

(** ** Further properties of [request] *)

Section RequestExtras.
Variable str_lower : string -> string.
Variable transport : nat -> bound_method -> string -> gmap string value -> reply.

(** X1.  With a retry limit of 0 or less the loop body never runs: a
    request that passes the argument checks raises [AttributeError] (the
    [raise] after the loop reads [res.status_code] with [res] still
    [None]) without activating the throttle or calling the transport. *)
Theorem request_without_retries url method kwargs m (w : world RequestHandler) :
  url <> ""%string -> method <> ""%string ->
  methods (self w) !! str_lower method = Some m ->
  retry (self w) <= 0 ->
  request str_lower transport url method kwargs w = (Raise AttributeError, w).
Proof.
  intros Hurl Hmethod Hm Hretry.
  rewrite (request_valid _ _ _ _ _ m) by assumption.
  replace (Z.to_nat (retry (self w))) with 0%nat by lia.
  simpl. unfold bind, get_self.
  apply Z.ltb_ge in Hretry. rewrite Hretry. reflexivity.
Qed.

(** X2.  Whatever the transport answers or raises and whatever the
    throttle does, a request only adds effects to the trace and issues
    at most [retry] transport calls (none when [retry] is negative). *)
Theorem request_never_exceeds_retry url method kwargs
    (w : world RequestHandler) :
  exists evs,
    trace (request str_lower transport url method kwargs w).2 =
      trace w ++ evs /\
    Z.of_nat (n_calls evs) <= Z.max 0 (retry (self w)) /\
    n_calls (trace (request str_lower transport url method kwargs w).2) =
      (n_calls (trace w) + n_calls evs)%nat.
Proof.
  destruct (request str_lower transport url method kwargs w) as [r w'] eqn:E.
  apply request_general in E as (_ & _ & evs & Htr & _ & Hn & _).
  exists evs. simpl. split; [assumption|]. split; [lia|].
  rewrite Htr. apply n_calls_app.
Qed.

(** X3.  Every transport call a request issues goes to the callable
    bound to the lower-cased method, for the URL of the request, with the
    options of the caller and a [headers] option: the caller's when one
    was given, the headers of the handler otherwise. *)
Theorem request_calls_carry_headers url method kwargs
    (w : world RequestHandler) :
  exists evs,
    trace (request str_lower transport url method kwargs w).2 =
      trace w ++ evs /\
    forall m' url' kw',
      Call m' url' kw' ∈ evs ->
      methods (self w) !! str_lower method = Some m' /\
      url' = url /\
      kw' !! "headers" =
        Some (default (headers (self w)) (kwargs !! "headers")) /\
      (forall key : string, key <> "headers"%string ->
         kw' !! key = kwargs !! key).
Proof.
  destruct (request str_lower transport url method kwargs w) as [r w'] eqn:E.
  apply request_general in E as (_ & _ & evs & Htr & Hall & _ & _).
  exists evs. simpl. split; [assumption|].
  intros m' url' kw' Hin.
  rewrite Forall_forall in Hall.
  destruct (Hall _ Hin) as [Hsleep|(m & Hm & Hcall)]; [discriminate|].
  injection Hcall as -> -> ->.
  split; [assumption|]. split; [reflexivity|]. apply default_headers_spec.
Qed.

(** X4.  A counting throttle with a step of 0 makes its first activation
    raise [ZeroDivisionError] after the counter has been incremented: a
    request that passes the argument checks with at least one attempt
    allowed raises it before any transport call. *)
Theorem request_zero_step_raises url method kwargs m
    (w : world RequestHandler) :
  url <> ""%string -> method <> ""%string ->
  methods (self w) !! str_lower method = Some m ->
  1 <= retry (self w) ->
  cls (delay (self w)) = DelayClass ->
  step (delay (self w)) = 0 ->
  exists w',
    request str_lower transport url method kwargs w =
      (Raise ZeroDivisionError, w') /\
    counter (delay (self w')) = counter (delay (self w)) + 1 /\
    trace w' = trace w.
Proof.
  intros Hurl Hmethod Hm Hretry Hcls Hstep.
  rewrite (request_valid _ _ _ _ _ m) by assumption.
  destruct (Z.to_nat (retry (self w))) as [|fuel] eqn:Ef; [lia|].
  simpl. unfold bind at 1, get_self at 1.
  replace (0 <? retry (self w)) with true by (symmetry; apply Z.ltb_lt; lia).
  unfold bind at 1, on_field, action, Delay_action, bind, get_self, set_self,
    py_mod, raise. simpl. rewrite Hcls. simpl. rewrite Hstep. simpl.
  eexists. split; [reflexivity|]. simpl. split; reflexivity.
Qed.

(** X5.  A request never pauses after its last transport call: the last
    effect it adds to the trace, if it adds any, is a transport call, so
    a failed attempt is followed either by the pause and call of the next
    attempt or by nothing. *)
Theorem request_ends_with_call url method kwargs (w : world RequestHandler) :
  exists evs,
    trace (request str_lower transport url method kwargs w).2 =
      trace w ++ evs /\
    (evs = [] \/ exists e, last evs = Some e /\ is_call e = true).
Proof.
  destruct (request str_lower transport url method kwargs w) as [r w'] eqn:E.
  apply request_general in E as (_ & _ & evs & Htr & _ & _ & Hlast).
  exists evs. simpl. split; [assumption|].
  destruct Hlast as [->|(evs0 & m & ->)]; [left; reflexivity|].
  right. eexists. rewrite last_snoc. split; reflexivity.
Qed.

(** X6.  A request changes nothing of its handler but the counter of the
    throttle, which never goes down: session, bindings, headers,
    encodings, retry limit, logger, and the class, step and pause length
    of the throttle are as before, whatever the outcome. *)
Theorem request_keeps_settings url method kwargs (w : world RequestHandler) :
  same_settings (self w)
                (self (request str_lower transport url method kwargs w).2) /\
  counter (delay (self w)) <=
    counter (delay (self (request str_lower transport url method kwargs w).2)).
Proof.
  destruct (request str_lower transport url method kwargs w) as [r w'] eqn:E.
  apply request_general in E as (Hset & Hcnt & _).
  simpl. split; assumption.
Qed.
End RequestExtras.

(** ** Counting pauses *)

Lemma div_succ (a N : Z) :
  0 < N ->
  (a + 1) / N = a / N + (if (a + 1) mod N =? 0 then 1 else 0).
Proof.
  intros HN.
  pose proof (Z.div_mod a N ltac:(lia)) as Ha.
  pose proof (Z.div_mod (a + 1) N ltac:(lia)) as Ha1.
  pose proof (Z.mod_pos_bound a N HN) as Hr.
  pose proof (Z.mod_pos_bound (a + 1) N HN) as Hr1.
  destruct (Z.eqb_spec ((a + 1) mod N) 0) as [E|E]; nia.
Qed.

Lemma replicate_pause {A} (N c n : Z) (e : A) :
  0 < N -> 0 <= n ->
  (if (c + 1) mod N =? 0 then [e] else []) ++
    replicate (Z.to_nat ((c + 1 + n) / N - (c + 1) / N)) e =
  replicate (Z.to_nat ((c + (n + 1)) / N - c / N)) e.
Proof.
  intros HN Hn.
  assert (Hmono : (c + 1) / N <= (c + 1 + n) / N)
    by (apply Z.div_le_mono; lia).
  replace (c + (n + 1)) with (c + 1 + n) by lia.
  pose proof (div_succ c N HN) as Hs.
  destruct ((c + 1) mod N =? 0).
  - replace (Z.to_nat ((c + 1 + n) / N - c / N))
      with (S (Z.to_nat ((c + 1 + n) / N - (c + 1) / N))) by lia.
    reflexivity.
  - replace ((c + 1) / N) with (c / N) by lia. reflexivity.
Qed.

(** X7.  With a step [N >= 1] (and a pause length [time.sleep] accepts),
    [n] activations of a throttle whose counter stands at [c] all return,
    leave the counter at [c + n] and take exactly as many pauses as there
    are multiples of [N] among [c + 1, ..., c + n], each of the configured
    length: the throttle pauses once every [N] activations, wherever the
    counter starts. *)
Theorem activations_pause_count (N : Z) (secs : Q) (n : nat) :
  1 <= N ->
  sleep_error secs = None ->
  forall (d : Delay) (tr : list event),
    step d = N -> sleep d = secs ->
    exists w',
      activations n (World d tr) = (Return tt, w') /\
      counter (self w') = counter d + Z.of_nat n /\
      trace w' =
        tr ++ replicate
                (Z.to_nat ((counter d + Z.of_nat n) / N - counter d / N))
                (Sleep secs).
Proof.
  intros HN Hsecs. induction n as [|n IH]; intros d tr Hstep Hsleep.
  - eexists. split; [reflexivity|]. simpl.
    rewrite Z.add_0_r, Z.sub_diag. simpl. rewrite app_nil_r. auto.
  - simpl activations. unfold bind.
    rewrite Delay_action_run by (rewrite ?Hstep, ?Hsleep; assumption || lia).
    destruct (IH (set_counter (counter d + 1) d)
                 (tr ++ (if (counter d + 1) mod step d =? 0
                         then [Sleep (sleep d)] else [])))
      as (w' & Hrun & Hcnt & Htr); [assumption..|].
    exists w'. split; [exact Hrun|]. simpl in Hcnt, Htr.
    split; [lia|].
    rewrite Htr, <- app_assoc, Hstep, Hsleep. f_equal.
    rewrite replicate_pause by lia. f_equal. f_equal. lia.
Qed.

Section PausesInRequest.
Variable str_lower : string -> string.
Variable transport : nat -> bound_method -> string -> gmap string value -> reply.

Lemma sleeps_after_attempts m url kw n :
  forall w : world RequestHandler,
    cls (delay (self w)) = DelayClass ->
    0 < step (delay (self w)) ->
    sleeps (trace (after_attempts n m url kw w)) =
      sleeps (trace w) ++
      replicate
        (Z.to_nat ((counter (delay (self w)) + Z.of_nat n) /
                     step (delay (self w)) -
                   counter (delay (self w)) / step (delay (self w))))
        (sleep (delay (self w))).
Proof.
  induction n as [|n IH]; intros w Hcls Hstep.
  - simpl. rewrite Z.add_0_r, Z.sub_diag. simpl. rewrite app_nil_r.
    reflexivity.
  - simpl after_attempts.
    assert (Hd : delay (self (after_attempt m url kw w)) =
                 set_counter (counter (delay (self w)) + 1) (delay (self w))).
    { simpl. unfold ticked. rewrite Hcls. reflexivity. }
    rewrite IH by (rewrite Hd; simpl; assumption). rewrite Hd.
    cbn [counter step sleep set_counter].
    assert (Hs : sleeps (trace (after_attempt m url kw w)) =
                 sleeps (trace w) ++
                 if (counter (delay (self w)) + 1) mod step (delay (self w)) =? 0
                 then [sleep (delay (self w))] else []).
    { unfold after_attempt, sleeps, pause_of. simpl. rewrite Hcls.
      rewrite !omap_app. simpl. rewrite app_nil_r.
      destruct (_ =? 0); reflexivity. }
    rewrite Hs, <- app_assoc. f_equal.
    pose proof (replicate_pause (step (delay (self w)))
                  (counter (delay (self w))) (Z.of_nat n)
                  (sleep (delay (self w))) Hstep ltac:(lia)) as Hrep.
    replace (Z.of_nat (S n)) with (Z.of_nat n + 1) by lia.
    exact Hrep.
Qed.

(** X8.  With a counting throttle of step [N >= 1] (and a pause length
    [time.sleep] accepts), a request takes exactly as many pauses as there
    are multiples of [N] between the counter before it (excluded) and the
    counter after it (included), each of the configured length, whatever
    the transport does: the pauses follow the count of attempts over all
    requests of the handler, not the success or failure of any. *)
Theorem request_pause_count url method kwargs (w : world RequestHandler) :
  cls (delay (self w)) = DelayClass ->
  1 <= step (delay (self w)) ->
  sleep_error (sleep (delay (self w))) = None ->
  sleeps (trace (request str_lower transport url method kwargs w).2) =
    sleeps (trace w) ++
    replicate
      (Z.to_nat
         (counter (delay (self (request str_lower transport url method
                                        kwargs w).2)) /
            step (delay (self w)) -
          counter (delay (self w)) / step (delay (self w))))
      (sleep (delay (self w))).
Proof.
  intros Hcls Hstep Hsleep.
  assert (Hwf : well_formed (delay (self w)) = true).
  { unfold well_formed, sleep_accepts. rewrite Hcls, Hsleep.
    replace (step (delay (self w)) =? 0) with false
      by (symmetry; apply Z.eqb_neq; lia).
    reflexivity. }
  destruct (request str_lower transport url method kwargs w) as [r w'] eqn:E.
  apply request_world in E as (n & m & ->); [|assumption]. simpl.
  rewrite counter_after_attempts by assumption.
  apply sleeps_after_attempts; [assumption|lia].
Qed.
End PausesInRequest.

(** ** Constructed handlers and the verb wrappers *)

(** The typed view of an object constructed without a [delay] argument,
    for an integer retry limit and extra keywords of ordinary names. *)
Lemma handler_of_init (session headers encoding : value) (r : Z)
    (kwargs : list (string * value)) :
  (forall kv, kv ∈ kwargs ->
     (kv.1 ∉ parameter_names) /\ kv.1 <> "_FalseDelay_"%string /\
     kv.1 ∉ reserved_names) ->
  let s := if truthy session then NewSession else RequestsModule in
  exists self,
    RequestHandler_init session headers encoding (VInt r) VNone kwargs =
      Return self /\
    handler_of self =
      Some (mkHandler s (session_methods s)
              (match headers with VNone => VDict HEADERS | _ => headers end)
              (match encoding with
               | VStr e => VTuple [e]
               | VList l => VTuple l
               | _ => encoding
               end)
              r (Delay_init FalseDelayClass 10 1) module_name).
Proof.
  intros Hord s.
  destruct (init_ordinary session headers encoding (VInt r) VNone kwargs Hord)
    as (self & Hinit & Hclass & _).
  exists self. split; [exact Hinit|].
  destruct (init_core session headers encoding (VInt r) VNone kwargs self Hinit)
    as (Hs & Hm & Hh & He & Hr & Hl & _ & Hd).
  unfold handler_of. cbv zeta.
  rewrite Hclass, Hs, Hm, Hh, He, Hr, Hl, Hd; [reflexivity..|].
  intros kv Hin. destruct (Hord kv Hin) as (_ & Hname & Hres).
  intros H. apply elem_of_cons in H as [H|H]; [contradiction|].
  apply Hres. unfold reserved_names.
  apply elem_of_cons in H as [->|H]; [apply list_elem_of_here|].
  apply elem_of_cons in H as [->|H];
    [apply list_elem_of_further, list_elem_of_here|].
  apply elem_of_nil in H. destruct H.
Qed.

Lemma sleeps_after_attempts_noop m url kw n (w : world RequestHandler) :
  cls (delay (self w)) = FalseDelayClass ->
  sleeps (trace (after_attempts n m url kw w)) = sleeps (trace w).
Proof.
  intros Hcls. induction n as [|n IH]; [reflexivity|].
  rewrite after_attempts_S. simpl. unfold pause_of.
  rewrite cls_after_attempts, Hcls. simpl.
  unfold sleeps in *. rewrite omap_app. simpl. rewrite app_nil_r. exact IH.
Qed.

(** X9.  A handler constructed without a [delay] argument, with an
    integer retry limit and extra keywords of ordinary names (no
    parameter of the constructor, not [_FalseDelay_], which the
    constructor calls to make the default throttle, and none of the
    reserved [__class__], [__dict__], [__weakref__]), gets the no-op
    throttle: the constructor returns, and no request made through the
    handler ever takes a pause or changes the throttle, whatever the
    transport does. *)
Theorem init_without_delay_never_pauses (session headers encoding : value)
    (r : Z) (extras : list (string * value)) :
  (forall kv, kv ∈ extras ->
     (kv.1 ∉ parameter_names) /\ kv.1 <> "_FalseDelay_"%string /\
     kv.1 ∉ reserved_names) ->
  exists obj h,
    RequestHandler_init session headers encoding (VInt r) VNone extras =
      Return obj /\
    handler_of obj = Some h /\
    retry h = r /\
    forall str_lower transport url method kwargs (tr : list event),
      sleeps (trace (request str_lower transport url method kwargs
                             (World h tr)).2) = sleeps tr /\
      delay (self (request str_lower transport url method kwargs
                           (World h tr)).2) = delay h.
Proof.
  intros Hord.
  destruct (handler_of_init session headers encoding r extras Hord)
    as (obj & Hinit & Hh).
  exists obj. eexists. split; [exact Hinit|]. split; [exact Hh|].
  split; [reflexivity|].
  intros str_lower transport url method kwargs tr.
  match goal with
  | |- context [request _ _ _ _ _ ?w0] =>
      destruct (request str_lower transport url method kwargs w0)
        as [res w'] eqn:E
  end.
  apply request_world in E as (n & m & ->); [|reflexivity]. simpl.
  split.
  - rewrite sleeps_after_attempts_noop; reflexivity.
  - rewrite delay_after_attempts_noop; reflexivity.
Qed.

Lemma session_methods_Some (s : session_obj) (verb : string) :
  verb ∈ verbs -> session_methods s !! verb = Some (BoundMethod s verb).
Proof.
  unfold verbs. intros H.
  repeat (apply elem_of_cons in H as [->|H]; [vm_compute; reflexivity|]).
  apply elem_of_nil in H. destruct H.
Qed.

Section WrapperFacts.
Variable str_lower : string -> string.
Variable transport : nat -> bound_method -> string -> gmap string value -> reply.

Lemma request_calls_only (s : session_obj) (verb url : string) kwargs
    (w : world RequestHandler) :
  str_lower verb = verb -> verb ∈ verbs ->
  methods (self w) = session_methods s ->
  calls_only (BoundMethod s verb) w
             (request str_lower transport url verb kwargs w).2.
Proof.
  intros Hlower Hverb Hmethods.
  destruct (request str_lower transport url verb kwargs w) as [r w'] eqn:E.
  apply request_general in E as (_ & _ & evs & Htr & Hall & _ & _).
  exists evs. split; [assumption|].
  intros m' url' kw' Hin. rewrite Forall_forall in Hall.
  destruct (Hall _ Hin) as [Hsleep|(m & Hm & Hcall)]; [discriminate|].
  injection Hcall as -> _ _.
  rewrite Hlower, Hmethods, session_methods_Some in Hm by assumption.
  congruence.
Qed.

(** X10.  On a handler whose bindings are those the constructor builds
    from a session [s], each verb wrapper only ever calls the callable of
    its own verb on [s]: [get] calls [s.get], [options] calls [s.options],
    and so on for [head], [post], [put], [patch] and [delete].  ([str.lower]
    leaves the seven verb names as they are.) *)
Theorem wrappers_call_their_verb (s : session_obj) (url : string) kwargs
    (w : world RequestHandler) :
  (forall verb, verb ∈ verbs -> str_lower verb = verb) ->
  methods (self w) = session_methods s ->
  calls_only (BoundMethod s "get") w
             (Verb.get str_lower transport url kwargs w).2 /\
  calls_only (BoundMethod s "options") w
             (Verb.options str_lower transport url kwargs w).2 /\
  calls_only (BoundMethod s "head") w
             (Verb.head str_lower transport url kwargs w).2 /\
  calls_only (BoundMethod s "post") w
             (Verb.post str_lower transport url kwargs w).2 /\
  calls_only (BoundMethod s "put") w
             (Verb.put str_lower transport url kwargs w).2 /\
  calls_only (BoundMethod s "patch") w
             (Verb.patch str_lower transport url kwargs w).2 /\
  calls_only (BoundMethod s "delete") w
             (Verb.delete str_lower transport url kwargs w).2.
Proof.
  intros Hlower Hmethods.
  assert (Hin : forall verb, verb ∈ verbs ->
            calls_only (BoundMethod s verb) w
                       (request str_lower transport url verb kwargs w).2).
  { intros verb Hverb. apply request_calls_only; auto. }
  unfold Verb.get, Verb.options, Verb.head, Verb.post, Verb.put, Verb.patch,
    Verb.delete.
  repeat split; apply Hin; unfold verbs;
    repeat first [apply list_elem_of_here | apply list_elem_of_further].
Qed.
End WrapperFacts.

(** ** Further properties of [download] *)

Lemma chuck_events_file_io (l : list bytes) :
  forallb is_file_io (chuck_events l) = true.
Proof.
  induction l as [|c l IH]; [reflexivity|].
  rewrite chuck_events_cons, forallb_app, IH. destruct c; reflexivity.
Qed.

Lemma total_length_take_le (l : list bytes) (n : nat) :
  0 <= total_length (take n l) <= total_length l.
Proof.
  revert n. induction l as [|c l IH]; intros [|n]; simpl; try lia.
  - specialize (IH 0%nat). rewrite take_0 in IH. simpl in IH. lia.
  - specialize (IH n). lia.
Qed.

Lemma concat_non_empty (l : list bytes) : concat (non_empty l) = concat l.
Proof.
  induction l as [|c l IH]; [reflexivity|].
  simpl. destruct c; simpl; rewrite IH; reflexivity.
Qed.

Section DownloadGeneral.
Variable str_lower : string -> string.
Variable transport : nat -> bound_method -> string -> gmap string value -> reply.
Variable int : string -> option Z.
Variable os_path_split : string -> string * string.

(** Saving a response touches nothing but the file and the stream. *)
Lemma save_response_general {O} (res : Response.t) (w1 : world O) r w2 :
  save_response str_lower int res w1 = (r, w2) ->
  self w2 = self w1 /\
  exists io, trace w2 = trace w1 ++ io /\ forallb is_file_io io = true.
Proof.
  unfold save_response, headers_contains, headers_getitem, py_int.
  destruct (Response.store (Response.headers res) !! _) as [item|].
  - unfold bind at 1, ret at 1.
    destruct (int item.2) as [L|].
    + unfold bind at 1, ret at 1. rewrite download_loop_run.
      intros H; inversion H; subst; simpl. split; [reflexivity|].
      eexists. split; [reflexivity|]. apply chuck_events_file_io.
    + unfold bind, raise. intros H; inversion H; subst.
      split; [reflexivity|]. exists []. rewrite app_nil_r. auto.
  - unfold emit. intros H; inversion H; subst; simpl.
    split; [reflexivity|]. eexists. split; reflexivity.
Qed.

(** [download], path by path. *)
Lemma download_unfold url save_path method kwargs (w : world RequestHandler) :
  download str_lower transport int os_path_split url save_path method kwargs w =
    match open_error save_path with
    | Some e =>
        (Raise e,
         World (self w) (trace w ++ [MakeDirs (os_path_split save_path).1]))
    | None =>
        match kwargs !! "stream" with
        | Some _ =>
            (Raise TypeError,
             World (self w)
                   (trace w ++ [MakeDirs (os_path_split save_path).1;
                                Open save_path; CloseFile]))
        | None =>
            let '(r1, w1) :=
              request str_lower transport url method
                      (<[ "stream" := VBool true ]> kwargs)
                      (opened os_path_split save_path w) in
            match r1 with
            | Return res =>
                let '(r2, w2) := save_response str_lower int res w1 in
                (r2, World (self w2) (trace w2 ++ [CloseResponse; CloseFile]))
            | Raise e => (Raise e, World (self w1) (trace w1 ++ [CloseFile]))
            | OutOfFuel =>
                (OutOfFuel, World (self w1) (trace w1 ++ [CloseFile]))
            end
        end
    end.
Proof.
  unfold download, make_if_doesnt_exist, open_wb.
  unfold bind at 1, emit at 1.
  destruct (open_error save_path) as [e|]; [reflexivity|].
  unfold bind at 1, emit at 1. simpl.
  unfold finally at 1. unfold bind at 1.
  rewrite <- app_assoc. simpl app.
  destruct (kwargs !! "stream") as [v|].
  - unfold raise, emit. simpl. rewrite <- app_assoc. reflexivity.
  - unfold opened.
    destruct (request _ _ _ _ _ _) as [[res|e|] w1]; try reflexivity.
    unfold finally at 1.
    destruct (save_response str_lower int res w1) as [r2 w2].
    unfold emit. simpl. rewrite <- app_assoc. reflexivity.
Qed.

(** [download], whatever happens. *)
Lemma download_general url save_path method kwargs
    (w : world RequestHandler) r w' :
  download str_lower transport int os_path_split url save_path method kwargs w
    = (r, w') ->
  same_settings (self w) (self w') /\
  match open_error save_path with
  | Some e =>
      r = Raise e /\
      trace w' = trace w ++ [MakeDirs (os_path_split save_path).1]
  | None =>
      exists net io closing,
        trace w' =
          trace w ++ [MakeDirs (os_path_split save_path).1; Open save_path] ++
          net ++ io ++ closing ++ [CloseFile] /\
        Forall (fun e =>
                  (exists secs, e = Sleep secs) \/
                  exists m,
                    e = Call m url (default_headers (self w)
                                      (<[ "stream" := VBool true ]> kwargs)))
               net /\
        forallb is_file_io io = true /\
        (closing = [CloseResponse] \/ (closing = [] /\ io = []))
  end.
Proof.
  rewrite download_unfold.
  destruct (open_error save_path) as [e0|].
  { intros H; inversion H; subst; simpl.
    split; [apply same_settings_refl|]. split; reflexivity. }
  destruct (kwargs !! "stream") as [v|].
  - intros H; inversion H; subst; simpl.
    split; [apply same_settings_refl|].
    exists [], [], []. simpl. repeat split; auto.
  - destruct (request _ _ _ _ _ _) as [r1 w1] eqn:E.
    apply request_general in E as (Hset & _ & net & Htr & Hall & _ & _).
    simpl in Hset, Htr, Hall.
    assert (Hnet : Forall (fun e =>
              (exists secs, e = Sleep secs) \/
              exists m,
                e = Call m url (default_headers (self w)
                                  (<[ "stream" := VBool true ]> kwargs)))
           net).
    { eapply Forall_impl; [exact Hall|].
      intros e [He|(m & _ & He)]; [left; eauto|right; eauto]. }
    destruct r1 as [res|e|].
    + destruct (save_response str_lower int res w1) as [r2 w2] eqn:Es.
      apply save_response_general in Es as (Hself & io & Htr2 & Hio).
      intros H; inversion H; subst; simpl.
      split; [rewrite Hself; exact Hset|].
      exists net, io, [CloseResponse].
      rewrite Htr2, Htr, <- !app_assoc. simpl.
      split; [reflexivity|]. split; [assumption|]. split; [assumption|].
      left. reflexivity.
    + intros H; inversion H; subst; simpl.
      split; [exact Hset|].
      exists net, [], []. rewrite Htr, <- !app_assoc. simpl.
      split; [reflexivity|]. split; [assumption|]. split; [reflexivity|].
      right. split; reflexivity.
    + intros H; inversion H; subst; simpl.
      split; [exact Hset|].
      exists net, [], []. rewrite Htr, <- !app_assoc. simpl.
      split; [reflexivity|]. split; [assumption|]. split; [reflexivity|].
      right. split; reflexivity.
Qed.
End DownloadGeneral.

Lemma n_calls_opened os_path_split save_path (w : world RequestHandler) :
  n_calls (trace (opened os_path_split save_path w)) = n_calls (trace w).
Proof. unfold opened. simpl. rewrite n_calls_app. unfold n_calls at 2. simpl. lia. Qed.

Section DownloadExtras.
Variable str_lower : string -> string.
Variable transport : nat -> bound_method -> string -> gmap string value -> reply.
Variable int : string -> option Z.
Variable os_path_split : string -> string * string.


(** X12.  Passing [stream] among the extra keywords of [download] gives
    the keyword to [request] twice: the call raises [TypeError] after the
    directory has been made and the file opened (and so created or
    emptied), the file is closed again, and no transport call is made.
    When [open] raises, [download] raises that error instead, with the
    directory made and nothing else done. *)
Theorem download_stream_keyword_twice url save_path method kwargs v
    (w : world RequestHandler) :
  kwargs !! "stream" = Some v ->
  match open_error save_path with
  | Some e =>
      download str_lower transport int os_path_split url save_path method
               kwargs w =
        (Raise e,
         World (self w) (trace w ++ [MakeDirs (os_path_split save_path).1]))
  | None =>
      exists w',
        download str_lower transport int os_path_split url save_path method
                 kwargs w = (Raise TypeError, w') /\
        trace w' =
          trace w ++
          [MakeDirs (os_path_split save_path).1; Open save_path; CloseFile] /\
        n_calls (trace w') = n_calls (trace w) /\
        self w' = self w
  end.
Proof.
  intros Hstream. rewrite download_unfold.
  destruct (open_error save_path) as [e|]; [reflexivity|].
  rewrite Hstream.
  eexists. split; [reflexivity|]. simpl. split; [reflexivity|].
  split; [|reflexivity].
  rewrite n_calls_app. unfold n_calls at 2. simpl. lia.
Qed.

(** X13.  When the response carries a [Content-Length] header whose value
    [int] does not accept, [download] raises [ValueError] after closing
    the response and the file; nothing has been read from the stream or
    written to the file, which stays as opening it left it.  (When
    [open] raises, [download] raises that error and nothing is sent.) *)
Theorem download_unreadable_length url save_path method kwargs res
    (w w1 : world RequestHandler) (item : string * string) :
  kwargs !! "stream" = None ->
  request str_lower transport url method (<[ "stream" := VBool true ]> kwargs)
          (opened os_path_split save_path w) = (Return res, w1) ->
  Response.store (Response.headers res) !! str_lower "Content-Length" =
    Some item ->
  int item.2 = None ->
  match open_error save_path with
  | Some e =>
      download str_lower transport int os_path_split url save_path method
               kwargs w =
        (Raise e,
         World (self w) (trace w ++ [MakeDirs (os_path_split save_path).1]))
  | None =>
      exists w',
        download str_lower transport int os_path_split url save_path method
                 kwargs w = (Raise ValueError, w') /\
        trace w' = trace w1 ++ [CloseResponse; CloseFile] /\
        writes (trace w') = writes (trace w) /\
        nexts (trace w') = nexts (trace w)
  end.
Proof.
  intros Hstream Hreq Hitem Hint.
  rewrite download_unfold.
  destruct (open_error save_path) as [e0|]; [reflexivity|].
  rewrite Hstream, Hreq.
  unfold save_response, headers_contains, headers_getitem, py_int.
  rewrite Hitem. unfold bind at 1, ret at 1. rewrite Hint.
  unfold bind, raise. eexists. split; [reflexivity|]. simpl.
  split; [reflexivity|].
  apply request_keeps_file_io in Hreq as [Hw Hn].
  unfold writes, nexts in *. rewrite !omap_app, Hw, Hn. simpl.
  rewrite !app_nil_r. split; reflexivity.
Qed.

(** X14.  When the stream ends before the declared [Content-Length] is
    reached, [download] reads every chunk, returns normally as if the
    download were complete, and the bytes written are exactly the body
    streamed: a short body is neither detected nor reported.  (When
    [open] raises, [download] raises that error and nothing is sent.) *)
Theorem download_short_stream url save_path method kwargs res
    (w w1 : world RequestHandler) (item : string * string) (L : Z) :
  let chucks := Response.iter_content res CHUCK_SIZE in
  kwargs !! "stream" = None ->
  request str_lower transport url method (<[ "stream" := VBool true ]> kwargs)
          (opened os_path_split save_path w) = (Return res, w1) ->
  Response.store (Response.headers res) !! str_lower "Content-Length" =
    Some item ->
  int item.2 = Some L ->
  total_length chucks < L ->
  match open_error save_path with
  | Some e =>
      download str_lower transport int os_path_split url save_path method
               kwargs w =
        (Raise e,
         World (self w) (trace w ++ [MakeDirs (os_path_split save_path).1]))
  | None =>
      exists w',
        download str_lower transport int os_path_split url save_path method
                 kwargs w = (Return tt, w') /\
        nexts (trace w') = nexts (trace w) ++ chucks /\
        writes (trace w') = writes (trace w) ++ non_empty chucks /\
        concat (writes (trace w')) = concat (writes (trace w)) ++ concat chucks /\
        total_length (non_empty chucks) < L
  end.
Proof.
  intros chucks Hstream Hreq Hitem HL Hshort.
  rewrite download_unfold.
  destruct (open_error save_path) as [e0|]; [reflexivity|].
  rewrite Hstream, Hreq.
  unfold save_response, headers_contains, headers_getitem, py_int.
  rewrite Hitem. unfold bind at 1, ret at 1. rewrite HL.
  unfold bind at 1, ret at 1. rewrite download_loop_run. fold chucks.
  destruct (consumed_bounds L chucks 0) as (Hlen & Hstop & _ & _).
  pose proof (total_length_take_le chucks (consumed L chucks 0)) as Hle.
  destruct Hstop as [Hall|Hreach]; [|lia].
  rewrite Hall, firstn_all.
  apply request_keeps_file_io in Hreq as [Hw Hn].
  eexists. split; [reflexivity|]. simpl.
  assert (Hwrites :
    writes (trace w1 ++ chuck_events chucks ++ [CloseResponse; CloseFile]) =
    writes (trace w) ++ non_empty chucks).
  { unfold writes in *. rewrite !omap_app, Hw.
    fold (writes (chuck_events chucks)). rewrite writes_chuck_events.
    simpl. rewrite app_nil_r. reflexivity. }
  rewrite <- app_assoc. split.
  { unfold nexts in *. rewrite !omap_app, Hn.
    fold (nexts (chuck_events chucks)). rewrite nexts_chuck_events.
    simpl. rewrite app_nil_r. reflexivity. }
  split; [exact Hwrites|]. split.
  - rewrite Hwrites, concat_app, concat_non_empty. reflexivity.
  - rewrite total_length_non_empty. assumption.
Qed.

(** X15.  Every transport call [download] issues is made in streaming
    mode, for the URL given, with a [headers] option: its options hold
    [stream=True] whatever the caller passed. *)
Theorem download_calls_stream url save_path method kwargs
    (w : world RequestHandler) :
  exists evs,
    trace (download str_lower transport int os_path_split url save_path
                    method kwargs w).2 = trace w ++ evs /\
    forall m url' kw,
      Call m url' kw ∈ evs ->
      url' = url /\
      kw !! "stream" = Some (VBool true) /\
      is_Some (kw !! "headers").
Proof.
  destruct (download str_lower transport int os_path_split url save_path
                     method kwargs w) as [r w'] eqn:E.
  apply download_general in E as [_ E].
  destruct (open_error save_path) as [e|].
  { destruct E as [_ Htr]. eexists. simpl. split; [exact Htr|].
    intros m url' kw Hin.
    apply elem_of_cons in Hin as [Hin|Hin]; [discriminate|].
    apply elem_of_nil in Hin. destruct Hin. }
  destruct E as (net & io & closing & Htr & Hnet & Hio & Hcl).
  eexists. simpl. split; [exact Htr|].
  intros m url' kw Hin.
  assert (Hin' : Call m url' kw ∈ net).
  { apply elem_of_app in Hin as [Hin|Hin].
    { repeat (apply elem_of_cons in Hin as [Hin|Hin]; [discriminate|]).
      apply elem_of_nil in Hin. destruct Hin. }
    apply elem_of_app in Hin as [Hin|Hin]; [exact Hin|].
    exfalso. apply elem_of_app in Hin as [Hin|Hin].
    { apply list_elem_of_In in Hin.
      rewrite forallb_forall in Hio. specialize (Hio _ Hin). discriminate. }
    apply elem_of_app in Hin as [Hin|Hin].
    { destruct Hcl as [->|[-> _]].
      - apply elem_of_cons in Hin as [Hin|Hin]; [discriminate|].
        apply elem_of_nil in Hin. exact Hin.
      - apply elem_of_nil in Hin. exact Hin. }
    apply elem_of_cons in Hin as [Hin|Hin]; [discriminate|].
    apply elem_of_nil in Hin. exact Hin. }
  rewrite Forall_forall in Hnet.
  destruct (Hnet _ Hin') as [[secs Hs]|[m' Hc]]; [discriminate|].
  injection Hc as -> -> ->.
  destruct (default_headers_spec (self w) (<[ "stream" := VBool true ]> kwargs))
    as [Hh Hother].
  split; [reflexivity|]. split.
  - rewrite Hother by discriminate. apply lookup_insert_eq.
  - rewrite Hh. eauto.
Qed.
End DownloadExtras.

Section DownloadRetries.
Variable str_lower : string -> string.
Variable transport : nat -> bound_method -> string -> gmap string value -> reply.
Variable int : string -> option Z.
Variable os_path_split : string -> string * string.

(** X16.  [download] goes through the retry loop of [request]: when all
    [retry >= 1] transport calls return a response with a status code
    other than 200, it raises the [RuntimeError] whose message is the
    text of the source with the last status code, in decimal, and the URL
    filled in, after exactly [retry] calls, having written nothing; the
    file has been opened all the same and is closed last.  The throttle
    is assumed not to raise: its step is not 0 and [time.sleep] accepts
    its pause length.  When [open] raises, [download] raises that error
    instead and no call is made. *)
Theorem download_gives_up_like_request url save_path method kwargs m
    (w : world RequestHandler) :
  let kw := default_headers (self w) (<[ "stream" := VBool true ]> kwargs) in
  let R := Z.to_nat (retry (self w)) in
  kwargs !! "stream" = None ->
  url <> ""%string -> method <> ""%string ->
  methods (self w) !! str_lower method = Some m ->
  well_formed (delay (self w)) = true ->
  1 <= retry (self w) ->
  fails_first R transport (n_calls (trace w)) m url kw ->
  match open_error save_path with
  | Some e =>
      download str_lower transport int os_path_split url save_path method
               kwargs w =
        (Raise e,
         World (self w) (trace w ++ [MakeDirs (os_path_split save_path).1]))
  | None =>
      exists final w',
        download str_lower transport int os_path_split url save_path method
                 kwargs w =
          (Raise (RuntimeError
                    ("「HTTP异常」状态码：" +:+
                     pretty (Response.status_code final) +:+
                     "，请求地址：" +:+ url)), w') /\
        transport (n_calls (trace w) + (R - 1))%nat m url kw =
          Responds final /\
        n_calls (trace w') = (n_calls (trace w) + R)%nat /\
        writes (trace w') = writes (trace w) /\
        Open save_path ∈ trace w' /\
        last (trace w') = Some CloseFile
  end.
Proof.
  intros kw R Hstream Hurl Hmethod Hm Hwf HR Hfail.
  rewrite download_unfold.
  destruct (open_error save_path) as [e0|]; [reflexivity|].
  destruct (request_all_fail str_lower transport url method
              (<[ "stream" := VBool true ]> kwargs) m
              (opened os_path_split save_path w))
    as (final & Hlast & _ & Hreq); try assumption.
  { rewrite n_calls_opened. exact Hfail. }
  rewrite n_calls_opened in Hlast. simpl in Hlast, Hreq. fold kw R in Hlast, Hreq.
  exists final. eexists. rewrite Hstream, Hreq.
  split; [reflexivity|]. simpl. split; [exact Hlast|].
  pose proof (request_keeps_file_io _ _ _ _ _ _ _ _ _ _ Hreq) as [Hw _].
  split; [|split; [|split]].
  - rewrite n_calls_app, n_calls_after_attempts, n_calls_opened.
    unfold n_calls at 2. simpl. lia.
  - unfold writes in *. rewrite omap_app, Hw. simpl. apply app_nil_r.
  - apply elem_of_app. left.
    apply request_general in Hreq as (_ & _ & evs & -> & _).
    unfold opened. simpl. apply elem_of_app. left.
    apply elem_of_app. right. apply list_elem_of_further, list_elem_of_here.
  - apply last_snoc.
Qed.

(** X17.  [download] retries like [request]: after [k] responses with a
    status code other than 200 ([k] below the retry limit) and then a
    response of status 200 without a [Content-Length] header, it returns
    having issued exactly [k + 1] transport calls and written the body of
    that last response, and of no earlier one, in a single write.  The
    throttle is assumed not to raise: its step is not 0 and [time.sleep]
    accepts its pause length.  When [open] raises, [download] raises
    that error instead and no call is made. *)
Theorem download_saves_first_200 url save_path method kwargs m (k : nat) res
    (w : world RequestHandler) :
  let kw := default_headers (self w) (<[ "stream" := VBool true ]> kwargs) in
  kwargs !! "stream" = None ->
  url <> ""%string -> method <> ""%string ->
  methods (self w) !! str_lower method = Some m ->
  well_formed (delay (self w)) = true ->
  Z.of_nat k < retry (self w) ->
  fails_first k transport (n_calls (trace w)) m url kw ->
  transport (n_calls (trace w) + k)%nat m url kw = Responds res ->
  Response.status_code res = 200 ->
  headers_contains str_lower (Response.headers res) "Content-Length" = false ->
  match open_error save_path with
  | Some e =>
      download str_lower transport int os_path_split url save_path method
               kwargs w =
        (Raise e,
         World (self w) (trace w ++ [MakeDirs (os_path_split save_path).1]))
  | None =>
      exists w',
        download str_lower transport int os_path_split url save_path method
                 kwargs w = (Return tt, w') /\
        n_calls (trace w') = (n_calls (trace w) + (k + 1))%nat /\
        writes (trace w') = writes (trace w) ++ [Response.content res]
  end.
Proof.
  intros kw Hstream Hurl Hmethod Hm Hwf Hk Hfail Hres Hst Hno.
  rewrite download_unfold.
  destruct (open_error save_path) as [e0|]; [reflexivity|].
  pose proof (request_after_failures str_lower transport url method
                (<[ "stream" := VBool true ]> kwargs) m k
                (opened os_path_split save_path w)) as Hreq.
  cbv zeta in Hreq. rewrite n_calls_opened in Hreq.
  change (self (opened os_path_split save_path w)) with (self w) in Hreq.
  fold kw in Hreq. rewrite Hres, Hst in Hreq. simpl negb in Hreq.
  cbv iota in Hreq.
  specialize (Hreq Hurl Hmethod Hm Hwf Hk Hfail).
  eexists. rewrite Hstream, Hreq.
  unfold save_response. rewrite Hno. unfold emit.
  split; [reflexivity|]. cbn [trace self].
  pose proof (request_keeps_file_io _ _ _ _ _ _ _ _ _ _ Hreq) as [Hw _].
  split.
  - rewrite !n_calls_app, n_calls_after_attempts, n_calls_opened.
    change (n_calls [Write (Response.content res)]) with 0%nat.
    change (n_calls [CloseResponse; CloseFile]) with 0%nat. lia.
  - unfold writes in *. rewrite !omap_app, Hw. simpl.
    rewrite <- app_assoc. reflexivity.
Qed.
End DownloadRetries.

(** ** Stripping comment delimiters in [html] *)

Lemma append_empty_r (s : string) : s +:+ "" = s.
Proof.
  induction s as [|c s IH]; [reflexivity|].
  change (String c (s +:+ "") = String c s). f_equal. exact IH.
Qed.

Lemma free_of_marks_cons (c : Ascii.ascii) (t : string) :
  free_of delimiter_marks (String c t) = true ->
  c <> Ascii.ascii_of_nat 33 /\ c <> Ascii.ascii_of_nat 45 /\
  free_of delimiter_marks t = true.
Proof.
  simpl. intros [Hc Ht]%andb_true_iff.
  apply negb_true_iff, orb_false_iff in Hc as [H1 H2].
  apply orb_false_iff in H2 as [H2 _].
  apply Ascii.eqb_neq in H1, H2. auto.
Qed.

(** A text without [!] in front of something that does not begin with
    [!] holds no opening delimiter that starts inside it. *)
Lemma replace_open_copy (t rest : string) :
  free_of delimiter_marks t = true ->
  begins_with (Ascii.ascii_of_nat 33) rest = false ->
  replace_from "<!--" "" 0 (t +:+ rest) =
    t +:+ replace_from "<!--" "" 0 rest.
Proof.
  intros Hfree Hrest. induction t as [|c t IH]; [reflexivity|].
  apply free_of_marks_cons in Hfree as (_ & _ & Hfree).
  assert (Hnext : String.prefix "!--" (t +:+ rest) = false).
  { destruct t as [|c' t'].
    - change ("" +:+ rest) with rest.
      destruct rest as [|b r]; [reflexivity|].
      cbn [String.prefix begins_with] in *.
      destruct (Ascii.ascii_dec _ b) as [<-|]; [discriminate|reflexivity].
    - apply free_of_marks_cons in Hfree as (Hc' & _ & _).
      change (String c' t' +:+ rest) with (String c' (t' +:+ rest)).
      cbn [String.prefix].
      destruct (Ascii.ascii_dec _ c') as [<-|];
        [exfalso; apply Hc'; reflexivity|reflexivity]. }
  change ((String c t) +:+ rest) with (String c (t +:+ rest)).
  cbn [replace_from].
  replace (String.prefix "<!--" (String c (t +:+ rest))) with false.
  - rewrite IH by assumption. reflexivity.
  - symmetry. cbn [String.prefix].
    destruct (Ascii.ascii_dec _ c); [exact Hnext|reflexivity].
Qed.

(** A text without [-] holds no closing delimiter that starts inside
    it. *)
Lemma replace_close_copy (t rest : string) :
  free_of delimiter_marks t = true ->
  replace_from "-->" "" 0 (t +:+ rest) =
    t +:+ replace_from "-->" "" 0 rest.
Proof.
  intros Hfree. induction t as [|c t IH]; [reflexivity|].
  apply free_of_marks_cons in Hfree as (_ & Hc & Hfree).
  change ((String c t) +:+ rest) with (String c (t +:+ rest)).
  cbn [replace_from].
  replace (String.prefix "-->" (String c (t +:+ rest))) with false.
  - rewrite IH by assumption. reflexivity.
  - symmetry. cbn [String.prefix].
    destruct (Ascii.ascii_dec _ c) as [<-|];
      [exfalso; apply Hc; reflexivity|reflexivity].
Qed.

Lemma replace_open_at_open (rest : string) :
  replace_from "<!--" "" 0 ("<!--" +:+ rest) = replace_from "<!--" "" 0 rest.
Proof. destruct rest; reflexivity. Qed.

Lemma replace_open_at_close (rest : string) :
  replace_from "<!--" "" 0 ("-->" +:+ rest) =
    "-->" +:+ replace_from "<!--" "" 0 rest.
Proof. destruct rest; reflexivity. Qed.

Lemma replace_close_at_close (rest : string) :
  replace_from "-->" "" 0 ("-->" +:+ rest) = replace_from "-->" "" 0 rest.
Proof. destruct rest; reflexivity. Qed.

Lemma replace_open_free (t : string) :
  free_of delimiter_marks t = true -> replace_from "<!--" "" 0 t = t.
Proof.
  intros Hfree.
  pose proof (replace_open_copy t "" Hfree eq_refl) as H.
  rewrite append_empty_r in H. rewrite H. apply append_empty_r.
Qed.

Lemma replace_close_free (t : string) :
  free_of delimiter_marks t = true -> replace_from "-->" "" 0 t = t.
Proof.
  intros Hfree.
  pose proof (replace_close_copy t "" Hfree) as H.
  rewrite append_empty_r in H. rewrite H. apply append_empty_r.
Qed.

Lemma uncomment_one (t1 t2 t3 : string) :
  free_of delimiter_marks t1 = true ->
  free_of delimiter_marks t2 = true ->
  free_of delimiter_marks t3 = true ->
  str_replace
    (str_replace (t1 +:+ "<!--" +:+ t2 +:+ "-->" +:+ t3) "<!--" "") "-->" "" =
  t1 +:+ t2 +:+ t3.
Proof.
  intros H1 H2 H3. unfold str_replace.
  rewrite replace_open_copy by (assumption || reflexivity).
  rewrite replace_open_at_open.
  rewrite replace_open_copy by (assumption || reflexivity).
  rewrite replace_open_at_close.
  rewrite replace_open_free by assumption.
  rewrite replace_close_copy by assumption.
  rewrite replace_close_copy by assumption.
  rewrite replace_close_at_close.
  rewrite replace_close_free by assumption.
  reflexivity.
Qed.

Section HtmlExtras.
Variable str_lower : string -> string.
Variable transport : nat -> bound_method -> string -> gmap string value -> reply.
Variable decode : bytes -> value -> option string -> result string.

(** X18.  [html] with [uncomment] set removes the two comment delimiters
    and nothing else: when the request (always a [get]) returns a response
    whose body decodes to a text, a comment and a text, all three free of
    [!] and [-], the result is the first text, the content of the comment
    and the last text, joined; the comment itself is kept in the page.
    The effects are those of the request. *)
Theorem html_uncomment_keeps_comment_text url encoding kwargs res
    (w w1 : world RequestHandler) (t1 t2 t3 : string) :
  request str_lower transport url "get" kwargs w = (Return res, w1) ->
  decode (Response.content res) (encodes (self w1)) encoding =
    Return (t1 +:+ "<!--" +:+ t2 +:+ "-->" +:+ t3) ->
  free_of delimiter_marks t1 = true ->
  free_of delimiter_marks t2 = true ->
  free_of delimiter_marks t3 = true ->
  html str_lower transport decode url encoding true kwargs w =
    (Return (t1 +:+ t2 +:+ t3), w1) /\
  html str_lower transport decode url encoding false kwargs w =
    (Return (t1 +:+ "<!--" +:+ t2 +:+ "-->" +:+ t3), w1).
Proof.
  intros Hreq Hdecode H1 H2 H3.
  unfold html, bind, get_self, lift, ret. rewrite Hreq, Hdecode.
  rewrite uncomment_one by assumption. split; reflexivity.
Qed.
End HtmlExtras.


End FurtherProperties.

(** ** Worked instances of the further properties, on [posix] *)

Section FurtherInstances.
#[local] Existing Instance posix.

Lemma request_without_retries_witness :
  request ascii_lower (always (plain_response 200)) "http://x" "get" ∅
          (fresh idle_handler) = (Raise AttributeError, fresh idle_handler).
Proof.
  apply (request_without_retries ascii_lower (always (plain_response 200))
           "http://x" "get" ∅ get_method (fresh idle_handler)).
  - discriminate.
  - discriminate.
  - vm_compute. reflexivity.
  - simpl. lia.
Defined.

Lemma request_zero_step_raises_witness :
  exists w',
    request ascii_lower (always (plain_response 200)) "http://x" "get" ∅
            (fresh stuck_handler) = (Raise ZeroDivisionError, w') /\
    counter (delay (self w')) = 0 + 1 /\
    trace w' = [].
Proof.
  apply (request_zero_step_raises ascii_lower (always (plain_response 200))
           "http://x" "get" ∅ get_method (fresh stuck_handler)).
  - discriminate.
  - discriminate.
  - vm_compute. reflexivity.
  - simpl. lia.
  - reflexivity.
  - reflexivity.
Defined.

(** Five activations from a counter of 7 with a step of 3 pass 9 and 12:
    two pauses. *)
Lemma activations_pause_count_witness :
  exists w',
    activations 5 (World worn_delay []) = (Return tt, w') /\
    counter (self w') = 7 + Z.of_nat 5 /\
    trace w' =
      [] ++ replicate (Z.to_nat ((7 + Z.of_nat 5) / 3 - 7 / 3)) (Sleep 2).
Proof.
  apply (activations_pause_count 3 2 5); [lia|reflexivity..].
Defined.

(** Three failed attempts from a counter of 7 with a step of 3 pass 9:
    one pause. *)
Lemma request_pause_count_witness :
  sleeps (trace (request ascii_lower (always (plain_response 500)) "http://x"
                         "get" ∅ (fresh (sample_handler 3 worn_delay))).2) =
    [] ++ replicate
            (Z.to_nat
               (counter (delay (self (request ascii_lower
                                        (always (plain_response 500))
                                        "http://x" "get" ∅
                                        (fresh (sample_handler 3 worn_delay))).2))
                  / 3 - 7 / 3))
            2%Q.
Proof.
  apply (request_pause_count ascii_lower (always (plain_response 500))
           "http://x" "get" ∅ (fresh (sample_handler 3 worn_delay))).
  - reflexivity.
  - simpl. lia.
  - reflexivity.
Defined.

(** [RequestHandler(retry=5, color='red')]: no pause on a request that
    fails five times. *)
Lemma init_without_delay_never_pauses_witness :
  exists obj h,
    RequestHandler_init (VBool true) VNone (VStr "UTF-8") (VInt 5) VNone
      [("color"%string, VStr "red")] = Return obj /\
    handler_of obj = Some h /\
    retry h = 5 /\
    sleeps (trace (request ascii_lower (always (plain_response 500))
                           "http://x" "get" ∅ (World h [])).2) = [] /\
    delay (self (request ascii_lower (always (plain_response 500))
                         "http://x" "get" ∅ (World h [])).2) = delay h.
Proof.
  destruct (init_without_delay_never_pauses (VBool true) VNone (VStr "UTF-8")
              5 [("color"%string, VStr "red")])
    as (obj & h & Hinit & Hh & Hretry & Hquiet).
  - intros kv H.
    apply elem_of_cons in H as [->|H]; [|apply elem_of_nil in H; destruct H].
    split; [|split; [discriminate|]]; intros H;
      repeat (apply elem_of_cons in H as [H|H]; [discriminate|]);
      apply elem_of_nil in H; exact H.
  - exists obj, h. split; [exact Hinit|]. split; [exact Hh|].
    split; [exact Hretry|].
    apply (Hquiet ascii_lower (always (plain_response 500)) "http://x" "get"
                  ∅ []).
Defined.

Lemma wrappers_call_their_verb_witness :
  calls_only (BoundMethod NewSession "post") (fresh default_handler)
             (Verb.post ascii_lower (always (plain_response 500)) "http://x" ∅
                        (fresh default_handler)).2.
Proof.
  apply (wrappers_call_their_verb ascii_lower (always (plain_response 500))
           NewSession "http://x" ∅ (fresh default_handler)).
  - intros verb Hverb. unfold verbs in Hverb.
    repeat (apply elem_of_cons in Hverb as [->|Hverb]; [reflexivity|]).
    apply elem_of_nil in Hverb. destruct Hverb.
  - reflexivity.
Defined.

Lemma download_stream_keyword_twice_witness :
  exists w',
    download ascii_lower (always declared_response) int_of_digits posix_split
             "http://x/f" "/tmp/out/f.bin" "get"
             (<[ "stream" := VBool false ]> ∅) (fresh default_handler) =
      (Raise TypeError, w') /\
    trace w' =
      [] ++ [MakeDirs (posix_split "/tmp/out/f.bin").1; Open "/tmp/out/f.bin";
             CloseFile] /\
    n_calls (trace w') = 0%nat /\
    self w' = default_handler.
Proof.
  destruct (download_stream_keyword_twice ascii_lower
              (always declared_response) int_of_digits posix_split
              "http://x/f" "/tmp/out/f.bin" "get"
              (<[ "stream" := VBool false ]> ∅) (VBool false)
              (fresh default_handler))
    as (w' & Hrun & Htrace & Hcalls & Hself).
  - vm_compute. reflexivity.
  - exists w'. split; [exact Hrun|]. split; [exact Htrace|].
    split; [exact Hcalls|exact Hself].
Defined.

Lemma download_unreadable_length_witness :
  exists w',
    download ascii_lower (always garbled_response) int_of_digits posix_split
             "http://x/f" "/tmp/out/f.bin" "get" ∅ (fresh default_handler) =
      (Raise ValueError, w') /\
    trace w' =
      trace (download_world garbled_response) ++ [CloseResponse; CloseFile] /\
    writes (trace w') = [] /\
    nexts (trace w') = [].
Proof.
  destruct (download_unreadable_length ascii_lower (always garbled_response)
              int_of_digits posix_split "http://x/f" "/tmp/out/f.bin" "get" ∅
              garbled_response (fresh default_handler)
              (download_world garbled_response)
              ("Content-Length", "many")%string)
    as (w' & Hrun & Htrace & Hwrites & Hnexts).
  - reflexivity.
  - vm_compute. reflexivity.
  - vm_compute. reflexivity.
  - reflexivity.
  - exists w'. split; [exact Hrun|]. split; [exact Htrace|].
    split; [exact Hwrites|exact Hnexts].
Defined.

(** 1000 bytes declared, 120 streamed: all three chunks are written and
    the call returns. *)
Lemma download_short_stream_witness :
  exists w',
    download ascii_lower (always short_response) int_of_digits posix_split
             "http://x/f" "/tmp/out/f.bin" "get" ∅ (fresh default_handler) =
      (Return tt, w') /\
    nexts (trace w') = [] ++ three_chucks /\
    writes (trace w') = [] ++ non_empty three_chucks /\
    concat (writes (trace w')) = concat [] ++ concat three_chucks /\
    total_length (non_empty three_chucks) < 1000.
Proof.
  destruct (download_short_stream ascii_lower (always short_response)
              int_of_digits posix_split "http://x/f" "/tmp/out/f.bin" "get" ∅
              short_response (fresh default_handler)
              (download_world short_response)
              ("content-length", "1000")%string 1000)
    as (w' & Hrun & Hnexts & Hwrites & Hbody & Hshort).
  - reflexivity.
  - vm_compute. reflexivity.
  - vm_compute. reflexivity.
  - reflexivity.
  - vm_compute. reflexivity.
  - exists w'. split; [exact Hrun|]. split; [exact Hnexts|].
    split; [exact Hwrites|]. split; [exact Hbody|exact Hshort].
Defined.

Lemma download_gives_up_like_request_witness :
  exists w',
    download ascii_lower (always (plain_response 500)) int_of_digits
             posix_split "http://x/f" "/tmp/out/f.bin" "get" ∅
             (fresh throttled_handler) =
      (Raise (RuntimeError "「HTTP异常」状态码：500，请求地址：http://x/f"), w') /\
    n_calls (trace w') = (0 + Z.to_nat 3)%nat /\
    writes (trace w') = [] /\
    Open "/tmp/out/f.bin" ∈ trace w' /\
    last (trace w') = Some CloseFile.
Proof.
  destruct (download_gives_up_like_request ascii_lower
              (always (plain_response 500)) int_of_digits posix_split
              "http://x/f" "/tmp/out/f.bin" "get" ∅ get_method
              (fresh throttled_handler))
    as (final & w' & Hrun & Hfinal & Hcalls & Hwrites & Hopen & Hlast).
  - reflexivity.
  - discriminate.
  - discriminate.
  - vm_compute. reflexivity.
  - reflexivity.
  - simpl. lia.
  - intros i Hi. exists (plain_response 500). split; [|discriminate].
    unfold always, scripted. destruct i; reflexivity.
  - change (Responds (plain_response 500) = Responds final) in Hfinal.
    injection Hfinal as <-.
    exists w'. split; [exact Hrun|]. split; [exact Hcalls|].
    split; [exact Hwrites|]. split; [exact Hopen|exact Hlast].
Defined.

Lemma download_saves_first_200_witness :
  exists w',
    download ascii_lower recovering int_of_digits posix_split "http://x/f"
             "/tmp/out/f.bin" "get" ∅ (fresh throttled_handler) =
      (Return tt, w') /\
    n_calls (trace w') = (0 + (2 + 1))%nat /\
    writes (trace w') = [] ++ [Response.content (plain_response 200)].
Proof.
  destruct (download_saves_first_200 ascii_lower recovering int_of_digits
              posix_split "http://x/f" "/tmp/out/f.bin" "get" ∅ get_method 2
              (plain_response 200) (fresh throttled_handler))
    as (w' & Hrun & Hcalls & Hwrites).
  - reflexivity.
  - discriminate.
  - discriminate.
  - vm_compute. reflexivity.
  - reflexivity.
  - simpl. lia.
  - intros i Hi. destruct i as [|[|i]]; [| |lia].
    + exists (plain_response 500). split; [reflexivity|discriminate].
    + exists (plain_response 503). split; [reflexivity|discriminate].
  - reflexivity.
  - reflexivity.
  - vm_compute. reflexivity.
  - exists w'. split; [exact Hrun|]. split; [exact Hcalls|exact Hwrites].
Defined.

(** The page [<p>a</p><!--hidden--><p>b</p>] comes back with its comment
    laid bare. *)
Lemma html_uncomment_keeps_comment_text_witness :
  html ascii_lower (always page_response) latin1 "http://x" None true ∅
       (fresh default_handler) =
    (Return ("<p>a</p>" +:+ "hidden" +:+ "<p>b</p>"),
     (request ascii_lower (always page_response) "http://x" "get" ∅
              (fresh default_handler)).2) /\
  html ascii_lower (always page_response) latin1 "http://x" None false ∅
       (fresh default_handler) =
    (Return ("<p>a</p>" +:+ "<!--" +:+ "hidden" +:+ "-->" +:+ "<p>b</p>"),
     (request ascii_lower (always page_response) "http://x" "get" ∅
              (fresh default_handler)).2).
Proof.
  apply (html_uncomment_keeps_comment_text ascii_lower (always page_response)
           latin1 "http://x" None ∅ page_response (fresh default_handler)).
  - vm_compute. reflexivity.
  - vm_compute. reflexivity.
  - reflexivity.
  - reflexivity.
  - reflexivity.
Defined.
End FurtherInstances.
